(** * SourcesTransform: cortical projection of point sources on a brain mesh

    A shallow embedding of [vbrain/elements/transformations/SourcesTransform.py].

    Conventions of the embedding.
    - A numpy float is an exact real number ([R]); the three comparisons the
      code uses become boolean functions built on the decision procedures of
      the real numbers.  A quotient whose divisor can be zero goes through
      [Np.divide], which returns the non-finite values numpy returns
      ([NaN], [PInf], [NInf]) instead of a real number.
    - A numpy integer array is a [list Z], a boolean array a [list bool], an
      (N,3) coordinate array a list of triples.
    - The object ([self]) is a record that methods take and give back; the
      calls made on collaborators (progress bar, warnings, source visual,
      mesh, colorbar) are recorded, in order, in a trace of events.
    - A Python exception ends the computation with [Raise]. *)

From Stdlib Require Import String Reals Lra List Bool Arith Lia ZArith Sorted.
Import ListNotations.
Open Scope R_scope.

(** ** numpy primitives *)

Module Np.

(** Values of a float array after a division that numpy does not guard. *)
Inductive float : Type :=
| Fin (x : R)
| PInf
| NInf
| NaN.

Definition le (x y : R) : bool := if Rle_dec x y then true else false.
Definition lt (x y : R) : bool := if Rlt_dec x y then true else false.
Definition eq (x y : R) : bool := if Req_dec_T x y then true else false.
Definition ne (x y : R) : bool := negb (eq x y).

(** [np.sign]: -1, 0 or 1. *)
Definition sign (x : R) : R :=
  if Rlt_dec 0 x then 1 else if Rlt_dec x 0 then -1 else 0.

(** [x / y] on floats: 0/0 is NaN and a non-zero value over 0 is infinite
    (numpy warns and goes on). *)
Definition divide (x y : R) : float :=
  if Req_dec_T y 0 then
    if Req_dec_T x 0 then NaN else if Rlt_dec 0 x then PInf else NInf
  else Fin (x / y).

(** [a * s] and [a + t] for a value [a] that may be non-finite. *)
Definition scale (a : float) (s : R) : float :=
  match a with
  | Fin x => Fin (x * s)
  | NaN => NaN
  | PInf => if Rlt_dec 0 s then PInf else if Rlt_dec s 0 then NInf else NaN
  | NInf => if Rlt_dec 0 s then NInf else if Rlt_dec s 0 then PInf else NaN
  end.

Definition shift (a : float) (t : R) : float :=
  match a with
  | Fin x => Fin (x + t)
  | other => other
  end.

(** [np.where(c)[0]]: the positions of the true entries, ascending. *)
Fixpoint where_from (i : nat) (c : list bool) : list nat :=
  match c with
  | [] => []
  | b :: c' => if b then i :: where_from (S i) c' else where_from (S i) c'
  end.

Definition where_ (c : list bool) : list nat := where_from 0 c.

(** [a[m]] for a boolean array [m]: the entries of [a] where [m] is true. *)
Fixpoint select {A : Type} (a : list A) (m : list bool) : list A :=
  match a, m with
  | x :: a', b :: m' => if b then x :: select a' m' else select a' m'
  | _, _ => []
  end.

(** [a[m] = vals] for a boolean array [m]: the entries of [vals] replace, in
    order, the entries of [a] where [m] is true. *)
Fixpoint assign {A : Type} (a : list A) (m : list bool) (vals : list A)
  : list A :=
  match a, m with
  | x :: a', b :: m' =>
      if b then
        match vals with
        | v :: vals' => v :: assign a' m' vals'
        | [] => x :: assign a' m' []
        end
      else x :: assign a' m' vals
  | _, _ => a
  end.

(** [a.min()] and [a.max()] of a non-empty array. *)
Definition min1 (x : R) (a : list R) : R := fold_left Rmin a x.
Definition max1 (x : R) (a : list R) : R := fold_left Rmax a x.

End Np.

(** ** Exceptions and results *)

Inductive exn : Type :=
| ValueError      (* a reduction of an empty array *)
| IndexError      (* an index outside an array, or a boolean index of another length *)
| TypeError.      (* subscripting None *)

Inductive res (A : Type) : Type :=
| Ok (a : A)
| Raise (e : exn).
Arguments Ok {A} a.
Arguments Raise {A} e.

Definition res_bind {A B : Type} (r : res A) (f : A -> res B) : res B :=
  match r with
  | Ok a => f a
  | Raise e => Raise e
  end.

(** [a.min()], [a.max()]: ValueError on an empty array. *)
Definition np_min (a : list R) : res R :=
  match a with
  | [] => Raise ValueError
  | x :: a' => Ok (Np.min1 x a')
  end.

Definition np_max (a : list R) : res R :=
  match a with
  | [] => Raise ValueError
  | x :: a' => Ok (Np.max1 x a')
  end.

(** ** _rescale_cmap *)

(** [_rescale_cmap(cort, to_min, to_max, val)].  The three assignments to
    [cort[non_zero]] are the three [Np.assign]; the first reduction raises on
    an empty selection, before anything is written. *)
Definition _rescale_cmap (cort : list R) (to_min to_max val : R)
  : res (list Np.float * list bool) :=
  (* non_zero = cort != val *)
  let non_zero := map (fun c => Np.ne c val) cort in
  (* cort[non_zero] = cort[non_zero] - cort[non_zero].min() *)
  res_bind (np_min (Np.select cort non_zero)) (fun lo =>
  let cort1 :=
    Np.assign cort non_zero
      (map (fun x => x - lo) (Np.select cort non_zero)) in
  (* cort[non_zero] = cort[non_zero]/cort[non_zero].max() *)
  res_bind (np_max (Np.select cort1 non_zero)) (fun hi =>
  let cort2 :=
    Np.assign (map Np.Fin cort1) non_zero
      (map (fun x => Np.divide x hi) (Np.select cort1 non_zero)) in
  (* cort[non_zero] = cort[non_zero]*(to_max-to_min) + to_min *)
  let cort3 :=
    Np.assign cort2 non_zero
      (map (fun a => Np.shift (Np.scale a (to_max - to_min)) to_min)
         (Np.select cort2 non_zero)) in
  Ok (cort3, non_zero))).

(** ** Integer indexing *)

(** [a[k]]: IndexError outside the array. *)
Definition getitem {A : Type} (a : list A) (k : nat) : res A :=
  match nth_error a k with
  | Some x => Ok x
  | None => Raise IndexError
  end.

(** [a[k] = v] for [k] inside the array. *)
Fixpoint setitem {A : Type} (a : list A) (k : nat) (v : A) : list A :=
  match a, k with
  | [], _ => []
  | _ :: a', O => v :: a'
  | x :: a', S k' => x :: setitem a' k' v
  end.

(** [a[idx]] for an array of positions [idx] that [np.where] produced. *)
Definition take (a : list R) (idx : list nat) : list R :=
  map (fun i => nth i a 0) idx.

(** [a[idx] += vals] for distinct positions [idx], entry by entry. *)
Fixpoint iadd_at (a : list R) (idx : list nat) (vals : list R) : list R :=
  match idx, vals with
  | i :: idx', v :: vals' => iadd_at (setitem a i (nth i a 0 + v)) idx' vals'
  | _, _ => a
  end.

(** [a[idx] += 1] on an integer array. *)
Fixpoint incr_at (a : list Z) (idx : list nat) : list Z :=
  match idx with
  | i :: idx' => incr_at (setitem a i (nth i a 0%Z + 1)%Z) idx'
  | [] => a
  end.

Definition in_range (n : nat) (idx : list nat) : bool :=
  forallb (fun i => Nat.ltb i n) idx.

(** ** Geometry *)

Definition point : Type := (R * R * R)%type.

(** First column of a coordinate row. *)
Definition col0 (p : point) : R := fst (fst p).

(** A row of [vert - np.ravel(xyz)]. *)
Definition row_sub (v p : point) : point :=
  let '(a, b, c) := v in
  let '(x, y, z) := p in
  (a - x, b - y, c - z).

(** [np.square(row).sum()] of one row. *)
Definition row_square_sum (p : point) : R :=
  let '(x, y, z) := p in x * x + y * y + z * z.

(** [np.sqrt(np.square(vert-np.ravel(xyz)).sum(1))]. *)
Definition eucl_of (vert : list point) (xyz : point) : list R :=
  map (fun v => sqrt (row_square_sum (row_sub v xyz))) vert.

(** [np.sign(vert[:, 0]) == np.sign(xyz[0])]. *)
Definition same_side (vert : list point) (xyz : point) : list bool :=
  map (fun v => Np.eq (Np.sign (col0 v)) (Np.sign (col0 xyz))) vert.

(** Entry-wise [&] of two boolean arrays of one length. *)
Fixpoint band (a b : list bool) : list bool :=
  match a, b with
  | x :: a', y :: b' => (x && y) :: band a' b'
  | _, _ => []
  end.

Definition _proximal_vertices (vert : list point) (xyz : point) (radius : R)
    (contribute : bool) : list nat * list R :=
  let eucl := eucl_of vert xyz in
  let idx :=
    if negb contribute then
      Np.where_ (band (map (fun e => Np.le e radius) eucl) (same_side vert xyz))
    else
      Np.where_ (map (fun e => Np.le e radius) eucl) in
  (idx, take eucl idx).

Definition _closest_vertex (vert : list point) (xyz : point)
    (contribute : bool) : res (list nat) :=
  let eucl := eucl_of vert xyz in
  res_bind (np_min eucl) (fun lo =>
  if negb contribute then
    Ok (Np.where_ (band (map (fun e => Np.eq e lo) eucl) (same_side vert xyz)))
  else
    Ok (Np.where_ (map (fun e => Np.eq e lo) eucl))).

(** [vert[idx, :]]: the rows at the positions [idx]. *)
Definition rows (vert : list point) (idx : list nat) : list point :=
  map (fun i => nth i vert (0, 0, 0)) idx.

(** [np.square(a).sum()] over every entry of a block of rows. *)
Definition square_sum (a : list point) : R :=
  fold_right (fun p acc => row_square_sum p + acc) 0 a.

Definition _isInside (vert : list point) (xyz : point) (contribute : bool)
  : res bool :=
  res_bind (_closest_vertex vert xyz contribute) (fun idx =>
  let eucl_vert := sqrt (square_sum (rows vert idx)) in
  let eucl_xyz := sqrt (row_square_sum xyz) in
  Ok (Np.lt eucl_xyz eucl_vert)).

(** Modelled from the spec: [normalize] of the [utils] package, which is not
    among the sources.  The spec gives it as the clipping of every entry into
    [[tomin, tomax]]: a weight [1 - dist/radius] is 1 at distance 0, 0 at
    distance [radius], and is brought back into [[0, 1]] when it leaves it. *)
Definition normalize (x : list R) (tomin tomax : R) : list R :=
  map (fun v => Rmax tomin (Rmin tomax v)) x.

(** ** Objects *)

(** A numpy masked array: values and a mask of the same shape (true hides). *)
Module Ma.
Record t : Type := make { values : list R; mask : list bool }.

(** [data.min()], [data.max()] over the entries that are not masked; [None]
    is the constant [masked] that numpy returns when there is none. *)
Definition unmasked (d : t) : list R :=
  Np.select (values d) (map negb (mask d)).

Definition min (d : t) : option R :=
  match unmasked d with
  | [] => None
  | x :: a => Some (Np.min1 x a)
  end.

Definition max (d : t) : option R :=
  match unmasked d with
  | [] => None
  | x :: a => Some (Np.max1 x a)
  end.
End Ma.

Definition rgba : Type := (R * R * R * R)%type.

(** Columns [0:3] of the row [d] written over those of the row [c]. *)
Definition set_rgb (c d : rgba) : rgba :=
  let '(_, _, _, a) := c in
  let '(r, g, b, _) := d in
  (r, g, b, a).

Module Sources.
Record t : Type := make { xyz : option (list point); data : Ma.t }.
End Sources.

Module Atlas.
Record t : Type := make {
  vert : list point;
  _nv : nat;
  d_vcolor : list rgba;
  (* what mesh.mesh_data.set_vertex_colors last received *)
  vertex_colors : option (list rgba)
}.
End Atlas.

(** The attributes of [self] that the methods read or write. *)
Record SourcesTransform : Type := mkSelf {
  radius : R;
  current_mask : option (list Np.float);
  current_non_zero : option (list bool);
  sources : Sources.t;
  atlas : Atlas.t;
  cmap : string;
  cmap_vmin : option R;
  cmap_vmax : option R;
  cmap_under : option string;
  cmap_over : option string;
  cblabel : string;
  cbfontsize : R;
  OpacitySlider_value : R;
  _slmin : R;
  _slmax : R;
  view_minOpacity : R;
  view_maxOpacity : R
}.

Definition set_radius (self : SourcesTransform) (r : R) : SourcesTransform :=
  mkSelf r (current_mask self) (current_non_zero self) (sources self)
    (atlas self) (cmap self) (cmap_vmin self) (cmap_vmax self)
    (cmap_under self) (cmap_over self) (cblabel self) (cbfontsize self)
    (OpacitySlider_value self) (_slmin self) (_slmax self)
    (view_minOpacity self) (view_maxOpacity self).

Definition set_current_mask (self : SourcesTransform)
    (m : option (list Np.float)) : SourcesTransform :=
  mkSelf (radius self) m (current_non_zero self) (sources self)
    (atlas self) (cmap self) (cmap_vmin self) (cmap_vmax self)
    (cmap_under self) (cmap_over self) (cblabel self) (cbfontsize self)
    (OpacitySlider_value self) (_slmin self) (_slmax self)
    (view_minOpacity self) (view_maxOpacity self).

Definition set_current_non_zero (self : SourcesTransform)
    (nz : option (list bool)) : SourcesTransform :=
  mkSelf (radius self) (current_mask self) nz (sources self)
    (atlas self) (cmap self) (cmap_vmin self) (cmap_vmax self)
    (cmap_under self) (cmap_over self) (cblabel self) (cbfontsize self)
    (OpacitySlider_value self) (_slmin self) (_slmax self)
    (view_minOpacity self) (view_maxOpacity self).

(** [self.sources.data.mask = m]. *)
Definition set_data_mask (self : SourcesTransform) (m : list bool)
  : SourcesTransform :=
  let s := sources self in
  mkSelf (radius self) (current_mask self) (current_non_zero self)
    (Sources.make (Sources.xyz s) (Ma.make (Ma.values (Sources.data s)) m))
    (atlas self) (cmap self) (cmap_vmin self) (cmap_vmax self)
    (cmap_under self) (cmap_over self) (cblabel self) (cbfontsize self)
    (OpacitySlider_value self) (_slmin self) (_slmax self)
    (view_minOpacity self) (view_maxOpacity self).

(** [self.atlas.mesh.mesh_data.set_vertex_colors(c)]. *)
Definition set_vertex_colors (self : SourcesTransform) (c : list rgba)
  : SourcesTransform :=
  let a := atlas self in
  mkSelf (radius self) (current_mask self) (current_non_zero self)
    (sources self)
    (Atlas.make (Atlas.vert a) (Atlas._nv a) (Atlas.d_vcolor a) (Some c))
    (cmap self) (cmap_vmin self) (cmap_vmax self)
    (cmap_under self) (cmap_over self) (cblabel self) (cbfontsize self)
    (OpacitySlider_value self) (_slmin self) (_slmax self)
    (view_minOpacity self) (view_maxOpacity self).

(** ** Calls on collaborators, and the monad of methods *)

Inductive event : Type :=
| progressbar_show
| progressbar_setValue (v : R)
| progressbar_hide
| warn (msg : string)
| sources_update
| sources_text_update
| mesh_data_changed
| cbupdate (values : list Np.float) (cmap : string) (vmin vmax : option R)
    (under over : option string) (label : string) (fontsize : R).

(** A method run: the calls it made, in order, and how it ended. *)
Definition M (A : Type) : Type := (list event * res A)%type.

Definition ret {A : Type} (a : A) : M A := ([], Ok a).

Definition bind {A B : Type} (m : M A) (f : A -> M B) : M B :=
  match m with
  | (t, Ok a) => let '(t', r) := f a in (t ++ t', r)
  | (t, Raise e) => (t, Raise e)
  end.

Definition emit (e : event) : M unit := ([e], Ok tt).

Definition lift {A : Type} (r : res A) : M A := ([], r).

Declare Scope method_scope.
Delimit Scope method_scope with method.
Notation "x <- m ;; k" := (bind m (fun x => k))
  (at level 61, m at next level, right associativity) : method_scope.
Notation "' p <- m ;; k" := (bind m (fun p => k))
  (at level 61, p pattern, m at next level, right associativity)
  : method_scope.
Notation "m ;; k" := (bind m (fun _ => k))
  (at level 61, right associativity) : method_scope.
Open Scope method_scope.

(** [for x in xs: acc = body(acc, x)]. *)
Fixpoint for_each {A S : Type} (xs : list A) (body : S -> A -> M S) (acc : S)
  : M S :=
  match xs with
  | [] => ret acc
  | x :: xs' => acc' <- body acc x ;; for_each xs' body acc'
  end.

(** [enumerate(xs)]. *)
Definition enumerate {A : Type} (xs : list A) : list (nat * A) :=
  combine (seq 0 (length xs)) xs.

(** ** Indexed writes that can fail *)

(** [a[k] = v]: IndexError outside the array. *)
Definition setitem_at {A : Type} (a : list A) (k : nat) (v : A) : res (list A) :=
  if Nat.ltb k (List.length a) then Ok (setitem a k v) else Raise IndexError.

(** [m[idx] = v] for a boolean array [idx]: IndexError when the lengths
    differ. *)
Fixpoint fill_where (m idx : list bool) (v : bool) : list bool :=
  match m, idx with
  | x :: m', b :: idx' => (if b then v else x) :: fill_where m' idx' v
  | _, _ => m
  end.

Definition bool_setitem (m idx : list bool) (v : bool) : res (list bool) :=
  if Nat.eqb (List.length idx) (List.length m) then Ok (fill_where m idx v)
  else Raise IndexError.

(** [c[idx, 0:3] = d[idx, 0:3]] for a boolean array [idx]. *)
Fixpoint rgb_where (c : list rgba) (idx : list bool) (d : list rgba)
  : list rgba :=
  match c, idx, d with
  | x :: c', b :: idx', y :: d' =>
      (if b then set_rgb x y else x) :: rgb_where c' idx' d'
  | _, _, _ => c
  end.

Definition rgb_setitem (c : list rgba) (idx : list bool) (d : list rgba)
  : res (list rgba) :=
  if Nat.eqb (List.length idx) (List.length c)
     && Nat.eqb (List.length idx) (List.length d)
  then Ok (rgb_where c idx d) else Raise IndexError.

Definition iadd_setitem (a : list R) (idx : list nat) (vals : list R)
  : res (list R) :=
  if in_range (List.length a) idx then Ok (iadd_at a idx vals)
  else Raise IndexError.

Definition incr_setitem (a : list Z) (idx : list nat) : res (list Z) :=
  if in_range (List.length a) idx then Ok (incr_at a idx)
  else Raise IndexError.

(** [np.divide(mask, prop)], entry by entry.  The caller gives a [prop] that
    starts at 1 and only grows, so that no divisor is zero. *)
Fixpoint divide_by (mask : list R) (prop : list Z) : list R :=
  match mask, prop with
  | m :: mask', p :: prop' => (m / IZR p) :: divide_by mask' prop'
  | _, _ => []
  end.

(** [select in [...]] on strings. *)
Definition str_in (s : string) (l : list string) : bool :=
  existsb (String.eqb s) l.

(** ** The methods *)

(** [__init__(self, t_radius=10.0, **kwargs)].  Its first statement is the
    chained assignment [self.radius = t_radius=10.0]: Python evaluates [10.0]
    and binds it to both targets, from left to right. *)
Definition __init__ (self : SourcesTransform) (t_radius : R)
  : SourcesTransform :=
  let value := 10 in
  let self := set_radius self value in
  let t_radius := value in
  set_current_mask self None.

(** [_get_mask(nv, vert, xyz, data, set_to, contribute)]: one turn of the
    loop, for the source [k] at place [i] of [idxunmasked]. *)
Definition _get_mask_body (self : SourcesTransform) (vert xyz : list point)
    (data : Ma.t) (contribute : bool) (N : nat)
    (acc : list Z * list R) (ik : nat * nat) : M (list Z * list R) :=
  let '(prop, mask) := acc in
  let '(i, k) := ik in
  emit (progressbar_setValue (100 * INR k / INR N)) ;;
  (* Find index : *)
  p <- lift (getitem xyz k) ;;
  let '(idx, eucl) := _proximal_vertices vert p (radius self) contribute in
  (* Update mask : *)
  let fact := map (fun e => 1 - (e / radius self)) eucl in
  let fact := normalize fact 0 1 in
  d <- lift (getitem (Ma.values data) k) ;;
  mask <- lift (iadd_setitem mask idx (map (fun f => d * f) fact)) ;;
  prop <- lift (incr_setitem prop idx) ;;
  ret (prop, mask).

Definition _get_mask (self : SourcesTransform) (nv : nat)
    (vert xyz : list point) (data : Ma.t) (set_to : Z) (contribute : bool)
  : M (list Z * list R) :=
  (* Define empty proportional and data mask : *)
  let prop :=
    if Z.eqb set_to 0 then repeat 0%Z nv
    else map (fun one => (set_to * one)%Z) (repeat 1%Z nv) in
  let mask := repeat 0 nv in
  let idxunmasked := Np.where_ (map (fun b => Bool.eqb b false) (Ma.mask data)) in
  let N := List.length idxunmasked in
  (* Find unmasked proximal vertices for each source : *)
  for_each (enumerate idxunmasked)
    (_get_mask_body self vert xyz data contribute N) (prop, mask).

(** Modelled from the spec: the class of [self.sources] is not among the
    sources.  The spec has the selector go through the sources one by one and
    hand each 3D coordinate to [is_inside]: iterating [self.sources] gives the
    rows of its coordinate array, and [len] their number.  Without a
    coordinate array there is nothing to subscript or to go through. *)
Definition sources_rows (s : Sources.t) : res (list point) :=
  match Sources.xyz s with
  | Some xyz => Ok xyz
  | None => Raise TypeError
  end.

(** One turn of the loops of [s_display] for ['inside'] ([flip] true: the
    mask is [~_isInside(...)]) and ['outside'] ([flip] false). *)
Definition s_display_body (flip : bool) (N : nat) (self : SourcesTransform)
    (ki : nat * point) : M SourcesTransform :=
  let '(k, i) := ki in
  emit (progressbar_setValue (100 * INR k / INR N)) ;;
  b <- lift (_isInside (Atlas.vert (atlas self)) i false) ;;
  m <- lift (setitem_at (Ma.mask (Sources.data (sources self))) k
               (if flip then negb b else b)) ;;
  ret (set_data_mask self m).

Definition s_display (self : SourcesTransform) (select : string)
  : M SourcesTransform :=
  let mask := Ma.mask (Sources.data (sources self)) in
  self <-
    (* All/None : *)
    (if str_in select ["all"; "none"]%string then
       if String.eqb select "all" then
         ret (set_data_mask self (map (fun _ => false) mask))
       else if String.eqb select "none" then
         ret (set_data_mask self (map (fun _ => true) mask))
       else ret self
     (* Left/Right hemisphere : *)
     else if str_in select ["left"; "right"]%string then
       xyz <- lift (sources_rows (sources self)) ;;
       (* Find where x is either > or < (the selector is one of the two) : *)
       let idx :=
         if String.eqb select "left" then map (fun p => Np.le 0 (col0 p)) xyz
         else map (fun p => Np.le (col0 p) 0) xyz in
       (* Update data mask : *)
       m <- lift (bool_setitem mask idx true) ;;
       m <- lift (bool_setitem m (map negb idx) false) ;;
       ret (set_data_mask self m)
     else if str_in select ["inside"; "outside"]%string then
       points <- lift (sources_rows (sources self)) ;;
       let N := List.length points in
       emit progressbar_show ;;
       self <-
         (if String.eqb select "inside" then
            for_each (enumerate points) (s_display_body true N) self
          else if String.eqb select "outside" then
            for_each (enumerate points) (s_display_body false N) self
          else ret self) ;;
       emit progressbar_hide ;;
       ret self
     else ret self) ;;
  (* Finally update data : *)
  emit sources_update ;;
  emit sources_text_update ;;
  ret self.

Definition no_sources_message : string :=
  "No sources detected. Use s_xyz input parameter to define source's coordinates".

Section Rendering.

(** The two colour helpers of the [utils] package, which is not among the
    sources: the methods below only pass values through them. *)
Variable slider2opacity : R -> R -> R -> R -> R -> R -> R -> R.
Variable array2colormap :
  list Np.float -> string -> R -> option R -> option R ->
  option string -> option string -> list rgba.

Definition _array2cmap (self : SourcesTransform) (x : list Np.float)
    (non_zero : option (list bool)) (vmin vmax : option R)
    (under over : option string) : M SourcesTransform :=
  (* Get alpha : *)
  let alpha :=
    slider2opacity (OpacitySlider_value self) 0 100 (_slmin self)
      (_slmax self) (view_minOpacity self) (view_maxOpacity self) in
  (* Get the colormap : *)
  let cmap := array2colormap x (cmap self) alpha vmin vmax under over in
  (* Set ~non_zero to default brain color : *)
  cmap <-
    match non_zero with
    | Some nz =>
        lift (rgb_setitem cmap (map negb nz) (Atlas.d_vcolor (atlas self)))
    | None => ret cmap
    end ;;
  (* Update mesh with cmap : *)
  let self := set_vertex_colors self cmap in
  emit mesh_data_changed ;;
  ret self.

(** Lines 71 to 74 of [cortical_projection]: the two arrays of [_get_mask]
    with [set_to=1], and their quotient. *)
Definition projection_values (self : SourcesTransform) (xyz : list point)
  : M (list R) :=
  (* Get data and proportional mask : *)
  ' (prop, mask) <-
    _get_mask self (Atlas._nv (atlas self)) (Atlas.vert (atlas self)) xyz
      (Sources.data (sources self)) 1 false ;;
  (* Divide the mask by the number of contributed sources : *)
  ret (divide_by mask prop).

(** [self.sources.data.min()] is the constant [masked] when every source is
    masked; the array to rescale is then 0 everywhere and the first reduction
    of [_rescale_cmap] raises before it reads [to_min]. *)
Definition rescale_to_data (cort : list R) (data : Ma.t)
  : res (list Np.float * list bool) :=
  match Ma.min data, Ma.max data with
  | Some lo, Some hi => _rescale_cmap cort lo hi 0
  | _, _ => Raise ValueError
  end.

Definition cortical_projection (self : SourcesTransform)
  : M SourcesTransform :=
  self <-
    match Sources.xyz (sources self) with
    | Some xyz =>
        emit progressbar_show ;;
        cort_mask <- projection_values self xyz ;;
        (* Rescale cortical mask data : *)
        ' (cort_mask, non_zero) <-
          lift (rescale_to_data cort_mask (Sources.data (sources self))) ;;
        (* Finally, set the mask to the surface : *)
        self <-
          _array2cmap self cort_mask (Some non_zero) (cmap_vmin self)
            (cmap_vmax self) (cmap_under self) (cmap_over self) ;;
        (* Save this current cmap (for colormap interaction) : *)
        let self := set_current_mask self (Some cort_mask) in
        let self := set_current_non_zero self (Some non_zero) in
        (* Update colorbar : *)
        emit (cbupdate (Np.select cort_mask non_zero) (cmap self)
                (cmap_vmin self) (cmap_vmax self) (cmap_under self)
                (cmap_over self) (cblabel self) (cbfontsize self)) ;;
        ret self
    | None =>
        emit (warn no_sources_message) ;;
        ret self
    end ;;
  emit progressbar_hide ;;
  ret self.

Definition cortical_repartition (self : SourcesTransform)
  : M SourcesTransform :=
  self <-
    match Sources.xyz (sources self) with
    | Some xyz =>
        emit progressbar_show ;;
        (* Get data and proportional mask : *)
        ' (prop, _) <-
          _get_mask self (Atlas._nv (atlas self)) (Atlas.vert (atlas self))
            xyz (Sources.data (sources self)) 0 false ;;
        (* Finally, set the mask to the surface : *)
        let non_zero := map (fun p => negb (Z.eqb p 0)) prop in
        vmax <- lift (np_max (map IZR prop)) ;;
        let values := map (fun p => Np.Fin (IZR p)) prop in
        self <-
          _array2cmap self values (Some non_zero) (Some 0) (Some vmax)
            None None ;;
        (* Save this current cmap (for colormap interaction) : *)
        let self := set_current_mask self (Some values) in
        let self := set_current_non_zero self (Some non_zero) in
        (* Update colorbar : *)
        emit (cbupdate (Np.select values non_zero) (cmap self)
                (cmap_vmin self) (cmap_vmax self) (cmap_under self)
                (cmap_over self) (cblabel self) (cbfontsize self)) ;;
        ret self
    | None =>
        emit (warn no_sources_message) ;;
        ret self
    end ;;
  emit progressbar_hide ;;
  ret self.

End Rendering.

(** * BrainMeshVisual: the state of the mesh visual

    A shallow embedding of the methods of
    [vbrain/visuals/BrainMeshVisual.py] that keep the colour, light and
    camera state and the three change flags.  The arrays are those that
    [set_data] leaves: one row per face, three vertices per face.  A method
    mutates the object in place, so a run gives the calls made on vispy, the
    object as it is left, and the exception raised, if any. *)

Module Mesh.

Definition triangle : Type := (point * point * point)%type.
Definition face_colours : Type := (rgba * rgba * rgba)%type.

(** A camera, by what the visual uses of it: [camera.transform.map]. *)
Record camera : Type := { transform : list R -> list R }.

Record t : Type := make {
  _vertFaces : list triangle;
  _colFaces : list face_colours;
  _normFaces : list triangle;
  _tri : list (nat * nat * nat);
  _data_changed : bool;
  _color_changed : bool;
  _light_changed : bool;
  _l_position : list R;
  _l_color : list R;
  _l_intensity : list R;
  _l_coefAmbient : R;
  _l_coefSpecular : R;
  _camera : option camera;
  _camera_transform : option (list R -> list R)
}.

Inductive exn : Type :=
| AttributeError     (* an attribute of None *)
| IndexError.        (* an index outside a list, or a boolean index of another shape *)

(** Calls on vispy. *)
Inductive event : Type :=
| update
| set_gl_state (preset : string) (depth_test cull_face : bool)
| update_gl_state
| faces_set_data (tri : list (nat * nat * nat))
| colors_set_data (c : list face_colours)
| vertices_set_data (v : list triangle)
| normals_set_data (n : list triangle)
| program_attribute (name : string)          (* shared_program.vert[name] = buffer *)
| program_uniform (name : string) (value : list R)
| view_uniform (name : string) (value : list R).

Definition run : Type := (list event * t * option exn)%type.

(** [then_ r f]: [f] runs on the object that [r] leaves, unless [r] raised. *)
Definition then_ (r : run) (f : t -> run) : run :=
  match r with
  | (tr, self, Some e) => (tr, self, Some e)
  | (tr, self, None) => let '(tr', self', e) := f self in (tr ++ tr', self', e)
  end.

Definition with_colFaces (self : t) (c : list face_colours) : t :=
  make (_vertFaces self) c (_normFaces self) (_tri self) (_data_changed self)
    (_color_changed self) (_light_changed self) (_l_position self)
    (_l_color self) (_l_intensity self) (_l_coefAmbient self)
    (_l_coefSpecular self) (_camera self) (_camera_transform self).

Definition with_flags (self : t) (data color light : bool) : t :=
  make (_vertFaces self) (_colFaces self) (_normFaces self) (_tri self)
    data color light (_l_position self)
    (_l_color self) (_l_intensity self) (_l_coefAmbient self)
    (_l_coefSpecular self) (_camera self) (_camera_transform self).

Definition with_light (self : t) (position color intensity : list R)
    (coefAmbient coefSpecular : R) : t :=
  make (_vertFaces self) (_colFaces self) (_normFaces self) (_tri self)
    (_data_changed self) (_color_changed self) (_light_changed self)
    position color intensity coefAmbient coefSpecular
    (_camera self) (_camera_transform self).

Definition with_camera (self : t) (c : option camera)
    (tr : option (list R -> list R)) : t :=
  make (_vertFaces self) (_colFaces self) (_normFaces self) (_tri self)
    (_data_changed self) (_color_changed self) (_light_changed self)
    (_l_position self) (_l_color self) (_l_intensity self)
    (_l_coefAmbient self) (_l_coefSpecular self) c tr.

(** [__len__]. *)
Definition len (self : t) : nat := List.length (_vertFaces self).

Definition mesh_data_changed (self : t) : run :=
  ([update],
   with_flags self true (_color_changed self) (_light_changed self), None).

Definition mesh_color_changed (self : t) : run :=
  ([update],
   with_flags self (_data_changed self) true (_light_changed self), None).

Definition mesh_light_changed (self : t) : run :=
  ([update],
   with_flags self (_data_changed self) (_color_changed self) true, None).

(** Column 3 of one colour. *)
Definition set_a (c : rgba) (a : R) : rgba :=
  let '(r, g, b, _) := c in (r, g, b, a).

(** [c[index, 3] = a] on the three vertices of one face. *)
Definition set_alpha_face (c : face_colours) (index : bool * bool * bool)
    (a : R) : face_colours :=
  let '(c0, c1, c2) := c in
  let '(i0, i1, i2) := index in
  (if i0 then set_a c0 a else c0,
   if i1 then set_a c1 a else c1,
   if i2 then set_a c2 a else c2).

Fixpoint set_alpha_where (c : list face_colours)
    (index : list (bool * bool * bool)) (a : R) : list face_colours :=
  match c, index with
  | x :: c', i :: index' => set_alpha_face x i a :: set_alpha_where c' index' a
  | _, _ => c
  end.

(** [set_alpha(alpha, index=None)]. *)
Definition set_alpha (self : t) (alpha : R)
    (index : option (list (bool * bool * bool))) : run :=
  let index :=
    match index with
    | None => repeat (true, true, true) (len self)
    | Some i => i
    end in
  if Nat.eqb (List.length index) (List.length (_colFaces self)) then
    mesh_color_changed
      (with_colFaces self (set_alpha_where (_colFaces self) index alpha))
  else ([], self, Some IndexError).

Definition or_else {A : Type} (o : option A) (d : A) : A :=
  match o with Some x => x | None => d end.

(** [set_light(l_position, l_color, l_intensity, l_coefAmbient,
    l_coefSpecular)]: an argument that is None leaves its attribute. *)
Definition set_light (self : t) (l_position l_color l_intensity : option (list R))
    (l_coefAmbient l_coefSpecular : option R) : run :=
  mesh_light_changed
    (with_light self
       (or_else l_position (_l_position self))
       (or_else l_color (_l_color self))
       (or_else l_intensity (_l_intensity self))
       (or_else l_coefAmbient (_l_coefAmbient self))
       (or_else l_coefSpecular (_l_coefSpecular self))).

Definition set_camera (self : t) (c : option camera) : run :=
  match c with
  | Some cam => ([update], with_camera self (Some cam) (Some (transform cam)), None)
  | None => ([], with_camera self None None, None)
  end.

Definition _update_data (self : t) : run :=
  ([faces_set_data (_tri self); colors_set_data (_colFaces self);
    vertices_set_data (_vertFaces self); normals_set_data (_normFaces self);
    program_attribute "a_position"; program_attribute "a_color";
    program_attribute "a_normal"],
   with_flags self false (_color_changed self) (_light_changed self), None).

Definition _update_color (self : t) : run :=
  ([colors_set_data (_colFaces self); program_attribute "a_color"],
   with_flags self (_data_changed self) false (_light_changed self), None).

Definition _update_light (self : t) : run :=
  ([program_uniform "u_color" (_l_color self);
    program_uniform "u_coefAmbient" [_l_coefAmbient self];
    program_uniform "u_light_position" (_l_position self);
    program_uniform "u_light_intensity" (_l_intensity self);
    program_uniform "u_coefSpecular" [_l_coefSpecular self]],
   with_flags self (_data_changed self) (_color_changed self) false, None).

(** [_prepare_draw(view)]; [has_view] is false for [view=None].  The update
    methods return None, never False, so that no branch returns early. *)
Definition _prepare_draw (self : t) (has_view : bool) : run :=
  then_ (if _data_changed self
         then then_ (_update_data self)
                (fun s => ([], with_flags s false (_color_changed s)
                                 (_light_changed s), None))
         else ([], self, None)) (fun self =>
  then_ (if _color_changed self
         then then_ (_update_color self)
                (fun s => ([], with_flags s (_data_changed s) false
                                 (_light_changed s), None))
         else ([], self, None)) (fun self =>
  then_ (if _light_changed self
         then then_ (_update_light self)
                (fun s => ([], with_flags s (_data_changed s)
                                 (_color_changed s) false, None))
         else ([], self, None)) (fun self =>
  if has_view then
    match _camera_transform self with
    | Some tr =>
        ([view_uniform "u_light_position" (removelast (tr (_l_position self)))],
         self, None)
    | None => ([], self, Some AttributeError)
    end
  else ([], self, Some AttributeError)))).

(** [l[k] = v] on a Python list. *)
Definition list_setitem (l : list R) (k : nat) (v : R) : option (list R) :=
  if Nat.ltb k (List.length l) then Some (setitem l k v) else None.

(** [projection(projection)]. *)
Definition projection (self : t) (projection : string) : run :=
  let l_color := _l_color self in
  let internal := String.eqb projection "internal" in
  match list_setitem l_color 3 (if internal then 1 / 10 else 1) with
  | Some l_color =>
      then_ ([set_gl_state "translucent" (negb internal) false], self, None)
        (fun self =>
      then_ (set_light self None (Some l_color) None None None) (fun self =>
      ([update_gl_state], self, None)))
  | None => ([set_gl_state "translucent" (negb internal) false], self,
             Some IndexError)
  end.

End Mesh.

(** ** Functions of the statements *)

(** [f] on the entries that [m] marks, [g] on the others. *)
Fixpoint map_if {A B : Type} (f g : A -> B) (a : list A) (m : list bool)
  : list B :=
  match a, m with
  | x :: a', b :: m' => (if b then f x else g x) :: map_if f g a' m'
  | _, _ => map g a
  end.

(** What [_rescale_cmap] writes on an entry that differs from [val]. *)
Definition rescaled (lo hi to_min to_max x : R) : Np.float :=
  Np.shift (Np.scale (Np.divide (x - lo) hi) (to_max - to_min)) to_min.

(** The answer of [_isInside(vert, xyz, contribute=False)] on a vertex array
    that is not empty (it raises on an empty one). *)
Definition classified_inside (vert : list point) (xyz : point) : bool :=
  match _isInside vert xyz false with
  | Ok b => b
  | Raise _ => false
  end.

(** The masks of the sources of [self]. *)
Definition data_mask (self : SourcesTransform) : list bool :=
  Ma.mask (Sources.data (sources self)).

(** The values [setValue] received, in order. *)
Fixpoint progress_values (t : list event) : list R :=
  match t with
  | [] => []
  | progressbar_setValue v :: t' => v :: progress_values t'
  | _ :: t' => progress_values t'
  end.

(** An object with the given vertices and sources, nothing drawn yet, and
    a neutral colour configuration. *)
Definition scene (r : R) (vert : list point) (xyz : option (list point))
    (values : list R) (mask : list bool) : SourcesTransform :=
  mkSelf r None None
    (Sources.make xyz (Ma.make values mask))
    (Atlas.make vert (List.length vert)
       (map (fun _ => (1, 1, 1, 1)) vert) None)
    "viridis" None None None None "" 12 0 0 100 0 1.

(** What the loops of [s_display] write for one source. *)
Definition written (flip : bool) (vert : list point) (p : point) : bool :=
  if flip then negb (classified_inside vert p) else classified_inside vert p.

(** The calls of a containment selector on [N] sources. *)
Definition containment_trace (N : nat) : list event :=
  progressbar_show
  :: map (fun k => progressbar_setValue (100 * INR k / INR N)) (seq 0 N)
  ++ [progressbar_hide; sources_update; sources_text_update].

(** *** The accumulation, source by source *)

(** The distance of the vertex [v] to the source at [p]. *)
Definition dist (v p : point) : R := sqrt (row_square_sum (row_sub v p)).

(** Whether the vertex [v] is among the proximal vertices of the source at
    [p]. *)
Definition reaches (radius : R) (contribute : bool) (p v : point) : bool :=
  if negb contribute then
    Np.le (dist v p) radius && Np.eq (Np.sign (col0 v)) (Np.sign (col0 p))
  else Np.le (dist v p) radius.

(** The weight of a source at distance [d]: [1 - d/radius] clipped into
    [[0, 1]]. *)
Definition weight (radius d : R) : R := Rmax 0 (Rmin 1 (1 - d / radius)).

Fixpoint zip_with {A B C : Type} (f : A -> B -> C) (a : list A) (b : list B)
  : list C :=
  match a, b with
  | x :: a', y :: b' => f x y :: zip_with f a' b'
  | _, _ => []
  end.

(** One turn of the loop of [_get_mask], for the source at [p] of value
    [d], on the two arrays. *)
Definition add_source (radius : R) (contribute : bool) (vert : list point)
    (acc : list Z * list R) (src : point * R) : list Z * list R :=
  let '(prop, mask) := acc in
  let '(p, d) := src in
  (zip_with (fun x v => if reaches radius contribute p v then (x + 1)%Z else x)
     prop vert,
   zip_with (fun m v => if reaches radius contribute p v
                        then m + d * weight radius (dist v p) else m)
     mask vert).

(** The sources that are not masked, with their values, in order. *)
Definition active_sources (xyz : list point) (data : Ma.t)
  : list (point * R) :=
  Np.select (combine xyz (Ma.values data)) (map negb (Ma.mask data)).

(** The number of sources of [srcs] that reach [v]. *)
Definition contributors (radius : R) (contribute : bool)
    (srcs : list (point * R)) (v : point) : nat :=
  List.length (filter (fun src => reaches radius contribute (fst src) v) srcs).

(** The weighted sum at [v] of the values of the sources that reach it. *)
Definition accumulated (radius : R) (contribute : bool)
    (srcs : list (point * R)) (v : point) : R :=
  fold_left
    (fun acc src =>
       if reaches radius contribute (fst src) v
       then acc + snd src * weight radius (dist v (fst src)) else acc)
    srcs 0.

(** The positions of the sources that are not masked. *)
Definition idxunmasked_of (data : Ma.t) : list nat :=
  Np.where_ (map (fun b => Bool.eqb b false) (Ma.mask data)).

Arguments Np.le : simpl never.
Arguments Np.lt : simpl never.
Arguments Np.eq : simpl never.
Arguments Np.ne : simpl never.
Arguments Np.sign : simpl never.
Arguments Np.divide : simpl never.

(** ** Comparisons *)

Lemma le_true (x y : R) : x <= y -> Np.le x y = true.
Proof. intro H. unfold Np.le. destruct (Rle_dec x y); [reflexivity | contradiction]. Qed.

Lemma le_false (x y : R) : y < x -> Np.le x y = false.
Proof. intro H. unfold Np.le. destruct (Rle_dec x y); [lra | reflexivity]. Qed.

Lemma lt_true (x y : R) : x < y -> Np.lt x y = true.
Proof. intro H. unfold Np.lt. destruct (Rlt_dec x y); [reflexivity | contradiction]. Qed.

Lemma lt_false (x y : R) : y <= x -> Np.lt x y = false.
Proof. intro H. unfold Np.lt. destruct (Rlt_dec x y); [lra | reflexivity]. Qed.

Lemma eq_true (x y : R) : x = y -> Np.eq x y = true.
Proof. intro H. unfold Np.eq. destruct (Req_dec_T x y); [reflexivity | contradiction]. Qed.

Lemma eq_false (x y : R) : x <> y -> Np.eq x y = false.
Proof. intro H. unfold Np.eq. destruct (Req_dec_T x y); [contradiction | reflexivity]. Qed.

Lemma ne_true (x y : R) : x <> y -> Np.ne x y = true.
Proof. intro H. unfold Np.ne. now rewrite eq_false. Qed.

Lemma ne_false (x y : R) : x = y -> Np.ne x y = false.
Proof. intro H. unfold Np.ne. now rewrite eq_true. Qed.

Lemma ne_spec (x y : R) : Np.ne x y = true <-> x <> y.
Proof.
  unfold Np.ne, Np.eq. destruct (Req_dec_T x y); simpl; split; intro H;
    try reflexivity; try discriminate; try assumption; contradiction.
Qed.

Lemma sign_pos (x : R) : 0 < x -> Np.sign x = 1.
Proof. intro H. unfold Np.sign. destruct (Rlt_dec 0 x); [reflexivity | contradiction]. Qed.

Lemma sign_neg (x : R) : x < 0 -> Np.sign x = -1.
Proof.
  intro H. unfold Np.sign. destruct (Rlt_dec 0 x); [lra |].
  destruct (Rlt_dec x 0); [reflexivity | contradiction].
Qed.

Lemma sign_zero : Np.sign 0 = 0.
Proof.
  unfold Np.sign. destruct (Rlt_dec 0 0); [lra | reflexivity].
Qed.

Lemma divide_zero_zero : Np.divide 0 0 = Np.NaN.
Proof.
  unfold Np.divide. destruct (Req_dec_T 0 0); [reflexivity | contradiction].
Qed.

Lemma divide_finite (x y : R) : y <> 0 -> Np.divide x y = Np.Fin (x / y).
Proof.
  intro H. unfold Np.divide. destruct (Req_dec_T y 0); [contradiction | reflexivity].
Qed.

(** ** Boolean indexing *)

Lemma select_map {A B : Type} (g : A -> B) (a : list A) (m : list bool) :
  Np.select (map g a) m = map g (Np.select a m).
Proof.
  revert m. induction a as [|x a IH]; intros [|b m]; simpl; try reflexivity.
  destruct b; simpl; now rewrite IH.
Qed.

Lemma assign_map_select {A B : Type} (f g : A -> B) (a : list A) (m : list bool) :
  Np.assign (map g a) m (map f (Np.select a m)) = map_if f g a m.
Proof.
  revert m. induction a as [|x a IH]; intros [|b m]; simpl; try reflexivity.
  destruct b; simpl; now rewrite IH.
Qed.

Lemma assign_map_select_id {A : Type} (f : A -> A) (a : list A) (m : list bool) :
  Np.assign a m (map f (Np.select a m)) = map_if f (fun x => x) a m.
Proof.
  rewrite <- (map_id a) at 1. apply assign_map_select.
Qed.

Lemma select_map_if {A B : Type} (f g : A -> B) (a : list A) (m : list bool) :
  Np.select (map_if f g a m) m = map f (Np.select a m).
Proof.
  revert m. induction a as [|x a IH]; intros [|b m]; simpl; try reflexivity.
  destruct b; simpl; now rewrite IH.
Qed.

Lemma map_if_map_if {A B C : Type} (f g : A -> B) (f' g' : B -> C)
    (a : list A) (m : list bool) :
  map_if f' g' (map_if f g a m) m
  = map_if (fun x => f' (f x)) (fun x => g' (g x)) a m.
Proof.
  revert m. induction a as [|x a IH]; intros [|b m]; simpl; try reflexivity.
  - now rewrite map_map.
  - destruct b; now rewrite IH.
Qed.

Lemma map_if_pred {A B : Type} (f g : A -> B) (p : A -> bool) (a : list A) :
  map_if f g a (map p a) = map (fun x => if p x then f x else g x) a.
Proof.
  induction a as [|x a IH]; simpl; [reflexivity | now rewrite IH].
Qed.

Lemma select_pred_filter {A : Type} (p : A -> bool) (a : list A) :
  Np.select a (map p a) = filter p a.
Proof.
  induction a as [|x a IH]; simpl; [reflexivity |].
  destruct (p x); now rewrite IH.
Qed.

(** ** The closed form of [_rescale_cmap] *)

Section RescaleWrites.

Variables (cort : list R) (to_min to_max val : R).
Let nz : list bool := map (fun c => Np.ne c val) cort.

Lemma first_write (f : R -> R) (S : list R) :
  S = Np.select cort nz ->
  Np.assign cort nz (map f S) = map_if f (fun x => x) cort nz.
Proof. intros ->. apply assign_map_select_id. Qed.

Lemma first_selection (f : R -> R) (S : list R) :
  S = Np.select cort nz ->
  Np.select (Np.assign cort nz (map f S)) nz = map f S.
Proof.
  intros HS. rewrite (first_write f S HS), select_map_if. now subst S.
Qed.

Lemma three_writes (lo hi : R) (S : list R) :
  S = Np.select cort nz ->
  let cort1 := Np.assign cort nz (map (fun x => x - lo) S) in
  let cort2 :=
    Np.assign (map Np.Fin cort1) nz
      (map (fun x => Np.divide x hi) (map (fun x => x - lo) S)) in
  Np.assign cort2 nz
    (map (fun a => Np.shift (Np.scale a (to_max - to_min)) to_min)
       (Np.select cort2 nz))
  = map (fun c => if Np.ne c val then rescaled lo hi to_min to_max c
                  else Np.Fin c) cort.
Proof.
  intros HS cort1 cort2.
  assert (H1 : cort1 = map_if (fun x => x - lo) (fun x => x) cort nz)
    by (apply first_write, HS).
  assert (H2 : cort2 = map_if (fun x => Np.divide (x - lo) hi) Np.Fin cort nz).
  { unfold cort2. rewrite <- (first_selection (fun x => x - lo) S HS).
    fold cort1. rewrite assign_map_select. rewrite H1.
    apply map_if_map_if. }
  rewrite assign_map_select_id, H2, map_if_map_if.
  unfold nz. rewrite map_if_pred. reflexivity.
Qed.

End RescaleWrites.

Lemma rescale_closed_form (cort : list R) (to_min to_max val : R) :
  _rescale_cmap cort to_min to_max val =
  match filter (fun c => Np.ne c val) cort with
  | [] => Raise ValueError
  | x :: sub =>
      let lo := Np.min1 x sub in
      let hi := Np.max1 (x - lo) (map (fun y => y - lo) sub) in
      Ok (map (fun c => if Np.ne c val
                        then rescaled lo hi to_min to_max c
                        else Np.Fin c) cort,
          map (fun c => Np.ne c val) cort)
  end.
Proof.
  unfold _rescale_cmap.
  rewrite <- select_pred_filter.
  destruct (Np.select cort (map (fun c => Np.ne c val) cort))
    as [|x sub] eqn:HS; [reflexivity |].
  cbn [np_min res_bind].
  rewrite (first_selection cort val _ _ (eq_sym HS)).
  rewrite map_cons. cbn [np_max res_bind].
  pose proof (three_writes cort to_min to_max val (Np.min1 x sub)
                (Np.max1 (x - Np.min1 x sub)
                   (map (fun y => y - Np.min1 x sub) sub))
                (x :: sub) (eq_sym HS)) as H3.
  cbv zeta in H3. rewrite <- H3. reflexivity.
Qed.

(** ** Evaluation of comparisons on concrete numbers *)

Lemma sign_null (x : R) : x = 0 -> Np.sign x = 0.
Proof. intros ->. apply sign_zero. Qed.

Ltac np_decide :=
  repeat match goal with
  | |- context [Np.le ?a ?b] =>
      first [rewrite (le_true a b) by lra | rewrite (le_false a b) by lra]
  | |- context [Np.lt ?a ?b] =>
      first [rewrite (lt_true a b) by lra | rewrite (lt_false a b) by lra]
  | |- context [Np.ne ?a ?b] =>
      first [rewrite (ne_true a b) by lra | rewrite (ne_false a b) by lra]
  | |- context [Np.eq ?a ?b] =>
      first [rewrite (eq_true a b) by lra | rewrite (eq_false a b) by lra]
  | |- context [Np.sign ?a] =>
      first [rewrite (sign_pos a) by lra | rewrite (sign_neg a) by lra
            | rewrite (sign_null a) by lra]
  | |- context [Rmin ?a ?b] =>
      first [rewrite (Rmin_left a b) by lra | rewrite (Rmin_right a b) by lra]
  | |- context [Rmax ?a ?b] =>
      first [rewrite (Rmax_left a b) by lra | rewrite (Rmax_right a b) by lra]
  end.

(** ** _rescale_cmap: frame and degenerate input *)

Lemma filter_nil_all {A : Type} (p : A -> bool) (l : list A) :
  filter p l = [] -> forall x, In x l -> p x = false.
Proof.
  induction l as [|y l IH]; simpl; intros H x Hx; [contradiction |].
  destruct (p y) eqn:Hy; [discriminate |].
  destruct Hx as [<- | Hx]; [assumption | now apply IH].
Qed.

Lemma ne_false_eq (x y : R) : Np.ne x y = false -> x = y.
Proof.
  intro H. destruct (Req_dec_T x y) as [e | n]; [assumption |].
  apply ne_true in n. congruence.
Qed.

(** C8. [_rescale_cmap] either raises ValueError, exactly when no entry
    differs from [val] (and then nothing was written), or returns the array
    in which every entry equal to [val] is the one it was and every other
    entry [x] is [((x - lo) / hi) * (to_max - to_min) + to_min], [lo] being
    the least of the entries that differ from [val] and [hi] the greatest of
    these entries minus [lo]; the mask returned marks the entries that
    differ from [val]. *)
Theorem C8_rescale_leaves_val_entries (cort : list R) (to_min to_max val : R) :
  match _rescale_cmap cort to_min to_max val with
  | Raise e => e = ValueError /\ forall x, In x cort -> x = val
  | Ok (cort', non_zero) =>
      non_zero = map (fun c => Np.ne c val) cort
      /\ List.length cort' = List.length cort
      /\ (exists x, In x cort /\ x <> val)
      /\ (forall i x, nth_error cort i = Some x -> x = val ->
            nth_error cort' i = Some (Np.Fin x))
      /\ exists lo hi,
           np_min (filter (fun c => Np.ne c val) cort) = Ok lo
           /\ np_max (map (fun y => y - lo)
                        (filter (fun c => Np.ne c val) cort)) = Ok hi
           /\ forall i x, nth_error cort i = Some x -> x <> val ->
                nth_error cort' i = Some (rescaled lo hi to_min to_max x)
  end.
Proof.
  rewrite rescale_closed_form.
  destruct (filter (fun c => Np.ne c val) cort) as [|x sub] eqn:Hf.
  - split; [reflexivity |].
    intros y Hy. apply ne_false_eq.
    exact (filter_nil_all _ _ Hf y Hy).
  - cbv zeta. split; [reflexivity |].
    split; [apply length_map |].
    split.
    { exists x. assert (Hx : In x (filter (fun c => Np.ne c val) cort))
        by (rewrite Hf; now left).
      apply filter_In in Hx. destruct Hx as [Hin Hne].
      split; [assumption | now apply ne_spec]. }
    split.
    { intros i y Hy Hval. rewrite nth_error_map, Hy. simpl.
      now rewrite (ne_false y val Hval). }
    exists (Np.min1 x sub).
    exists (Np.max1 (x - Np.min1 x sub) (map (fun y => y - Np.min1 x sub) sub)).
    split; [reflexivity |]. split; [reflexivity |].
    intros i y Hy Hval. rewrite nth_error_map, Hy. simpl.
    now rewrite (ne_true y val Hval).
Qed.

(** When the entries that differ from [val] are all the same number, the
    shifted selection is 0 everywhere, its greatest entry is 0, and each of
    these entries becomes 0/0. *)
Lemma min1_constant (c : R) (l : list R) :
  (forall x, In x l -> x = c) -> Np.min1 c l = c.
Proof.
  unfold Np.min1. induction l as [|y l IH]; simpl; intro H; [reflexivity |].
  rewrite (H y (or_introl eq_refl)), Rmin_left by lra.
  apply IH. intros x Hx. apply H. now right.
Qed.

Lemma max1_constant (c : R) (l : list R) :
  (forall x, In x l -> x = c) -> Np.max1 c l = c.
Proof.
  unfold Np.max1. induction l as [|y l IH]; simpl; intro H; [reflexivity |].
  rewrite (H y (or_introl eq_refl)), Rmax_left by lra.
  apply IH. intros x Hx. apply H. now right.
Qed.

Lemma rescaled_degenerate (c to_min to_max : R) :
  rescaled c 0 to_min to_max c = Np.NaN.
Proof.
  unfold rescaled. replace (c - c) with 0 by lra.
  now rewrite divide_zero_zero.
Qed.

Lemma rescale_degenerate (cort : list R) (to_min to_max val c : R) :
  c <> val -> In c cort -> (forall x, In x cort -> x = val \/ x = c) ->
  _rescale_cmap cort to_min to_max val
  = Ok (map (fun x => if Np.ne x val then Np.NaN else Np.Fin x) cort,
        map (fun x => Np.ne x val) cort).
Proof.
  intros Hc Hin Hall. rewrite rescale_closed_form.
  assert (Hsel : forall x, In x (filter (fun c => Np.ne c val) cort) -> x = c).
  { intros x Hx. apply filter_In in Hx. destruct Hx as [Hx Hne].
    apply ne_spec in Hne. destruct (Hall x Hx); [contradiction | assumption]. }
  destruct (filter (fun c => Np.ne c val) cort) as [|x sub] eqn:Hf.
  - exfalso. apply ne_true in Hc.
    pose proof (filter_nil_all _ _ Hf c Hin) as H. simpl in H. congruence.
  - cbv zeta.
    assert (Hx : x = c) by (apply Hsel; now left).
    assert (Hsub : forall y, In y sub -> y = c) by (intros y Hy; apply Hsel; now right).
    subst x. rewrite (min1_constant c sub Hsub).
    assert (Hhi : Np.max1 (c - c) (map (fun y => y - c) sub) = 0).
    { replace (c - c) with 0 by lra. apply max1_constant.
      intros y Hy. apply in_map_iff in Hy. destruct Hy as [z [<- Hz]].
      rewrite (Hsub z Hz). lra. }
    rewrite Hhi. f_equal. f_equal.
    apply map_ext_in. intros y Hy.
    destruct (Np.ne y val) eqn:Hne; [| reflexivity].
    apply ne_spec in Hne.
    destruct (Hall y Hy) as [-> | ->]; [contradiction |].
    apply rescaled_degenerate.
Qed.

(** C5. On [[0, 2, 2]] with [val = 0] the two entries that differ from [val]
    are equal: the division is 0/0 and both come back as NaN.  On [[0, 0]]
    no entry differs from [val] and the first reduction raises ValueError. *)
Theorem C5_rescale_degenerate_is_nan :
  _rescale_cmap [0; 2; 2] 0 1 0
  = Ok ([Np.Fin 0; Np.NaN; Np.NaN], [false; true; true])
  /\ _rescale_cmap [0; 0] 0 1 0 = Raise ValueError.
Proof.
  split.
  - rewrite (rescale_degenerate [0; 2; 2] 0 1 0 2).
    + cbn [map]. np_decide. reflexivity.
    + lra.
    + simpl. tauto.
    + simpl. intros x [<- | [<- | [<- | []]]]; [left | right | right]; lra.
  - rewrite rescale_closed_form. cbn [filter]. np_decide. reflexivity.
Qed.

(** *** The rescaled entries lie in the target range *)

Lemma fold_min_le (l : list R) :
  forall a, fold_left Rmin l a <= a
            /\ forall y, In y l -> fold_left Rmin l a <= y.
Proof.
  induction l as [|z l IH]; intro a; simpl.
  - split; [lra | contradiction].
  - destruct (IH (Rmin a z)) as [H1 H2]. split.
    + pose proof (Rmin_l a z). lra.
    + intros y [<- | Hy]; [pose proof (Rmin_r a z); lra | now apply H2].
Qed.

Lemma fold_max_ge (l : list R) :
  forall a, a <= fold_left Rmax l a
            /\ forall y, In y l -> y <= fold_left Rmax l a.
Proof.
  induction l as [|z l IH]; intro a; simpl.
  - split; [lra | contradiction].
  - destruct (IH (Rmax a z)) as [H1 H2]. split.
    + pose proof (Rmax_l a z). lra.
    + intros y [<- | Hy]; [pose proof (Rmax_r a z); lra | now apply H2].
Qed.

Lemma np_min_le (sel : list R) (lo : R) :
  np_min sel = Ok lo -> forall x, In x sel -> lo <= x.
Proof.
  destruct sel as [|x0 sel]; [discriminate |].
  intros [= <-] x [<- | Hx]; unfold Np.min1.
  - apply (proj1 (fold_min_le sel _)).
  - now apply (proj2 (fold_min_le sel _)).
Qed.

Lemma np_max_ge (sel : list R) (hi : R) :
  np_max sel = Ok hi -> forall x, In x sel -> x <= hi.
Proof.
  destruct sel as [|x0 sel]; [discriminate |].
  intros [= <-] x [<- | Hx]; unfold Np.max1.
  - apply (proj1 (fold_max_ge sel _)).
  - now apply (proj2 (fold_max_ge sel _)).
Qed.

(** When the selection is not constant ([hi] is not 0) and
    [to_min <= to_max], every entry that differs from [val] comes back as a
    finite number of [[to_min, to_max]]. *)
Lemma rescaled_in_range (sel : list R) (lo hi to_min to_max : R) :
  np_min sel = Ok lo ->
  np_max (map (fun y => y - lo) sel) = Ok hi ->
  hi <> 0 -> to_min <= to_max ->
  forall x, In x sel ->
  exists y, rescaled lo hi to_min to_max x = Np.Fin y /\ to_min <= y <= to_max.
Proof.
  intros Hlo Hhi Hnz Hrange x Hx.
  assert (H0 : 0 <= x - lo) by (pose proof (np_min_le sel lo Hlo x Hx); lra).
  assert (H1 : x - lo <= hi).
  { apply (np_max_ge _ hi Hhi). now apply (in_map (fun y => y - lo)). }
  assert (Hpos : 0 < hi) by lra.
  unfold rescaled. rewrite divide_finite by assumption. cbn [Np.scale Np.shift].
  eexists. split; [reflexivity |].
  assert (Hq : 0 <= (x - lo) / hi <= 1).
  { split.
    - apply Rle_mult_inv_pos; assumption.
    - apply (Rmult_le_reg_r hi); [assumption |].
      unfold Rdiv. rewrite Rmult_assoc, Rinv_l by lra. lra. }
  nra.
Qed.

(** ** s_display *)

Lemma fill_where_twice (m idx : list bool) :
  List.length idx = List.length m ->
  fill_where (fill_where m idx true) (map negb idx) false = idx.
Proof.
  revert idx. induction m as [|x m IH]; intros [|b idx] H; simpl in *;
    try reflexivity; try discriminate.
  injection H as H. rewrite (IH idx H). now destruct b.
Qed.

Lemma fill_where_length (m idx : list bool) (v : bool) :
  List.length (fill_where m idx v) = List.length m.
Proof.
  revert idx. induction m as [|x m IH]; intros [|b idx]; simpl; try reflexivity.
  now rewrite IH.
Qed.

(** Both hemisphere selectors end with the boolean array [idx] as the new
    mask. *)
Lemma hemisphere_mask (m idx : list bool) :
  List.length idx = List.length m ->
  res_bind (bool_setitem m idx true)
    (fun m1 => bool_setitem m1 (map negb idx) false) = Ok idx.
Proof.
  intro H. unfold bool_setitem. rewrite H, Nat.eqb_refl. cbn [res_bind].
  rewrite length_map, fill_where_length, H, Nat.eqb_refl.
  now rewrite fill_where_twice.
Qed.

Lemma s_display_left (self : SourcesTransform) (xyz : list point) :
  Sources.xyz (sources self) = Some xyz ->
  List.length (data_mask self) = List.length xyz ->
  s_display self "left"
  = ([sources_update; sources_text_update],
     Ok (set_data_mask self (map (fun p => Np.le 0 (col0 p)) xyz))).
Proof.
  intros Hxyz Hlen. unfold s_display, sources_rows. rewrite Hxyz.
  cbn [str_in existsb String.eqb Ascii.eqb Bool.eqb orb lift bind].
  set (idx := map (fun p => Np.le 0 (col0 p)) xyz).
  assert (Hidx : List.length idx = List.length (data_mask self))
    by (unfold idx; now rewrite length_map).
  pose proof (hemisphere_mask _ _ Hidx) as H.
  unfold data_mask in *.
  destruct (bool_setitem (Ma.mask (Sources.data (sources self))) idx true)
    as [m1 | e]; cbn [res_bind] in H; [| discriminate].
  cbn [bind app]. rewrite H. reflexivity.
Qed.

Lemma s_display_right (self : SourcesTransform) (xyz : list point) :
  Sources.xyz (sources self) = Some xyz ->
  List.length (data_mask self) = List.length xyz ->
  s_display self "right"
  = ([sources_update; sources_text_update],
     Ok (set_data_mask self (map (fun p => Np.le (col0 p) 0) xyz))).
Proof.
  intros Hxyz Hlen. unfold s_display, sources_rows. rewrite Hxyz.
  cbn [str_in existsb String.eqb Ascii.eqb Bool.eqb orb lift bind].
  set (idx := map (fun p => Np.le (col0 p) 0) xyz).
  assert (Hidx : List.length idx = List.length (data_mask self))
    by (unfold idx; now rewrite length_map).
  pose proof (hemisphere_mask _ _ Hidx) as H.
  unfold data_mask in *.
  destruct (bool_setitem (Ma.mask (Sources.data (sources self))) idx true)
    as [m1 | e]; cbn [res_bind] in H; [| discriminate].
  cbn [bind app]. rewrite H. reflexivity.
Qed.

Lemma nth_error_map_some {A B : Type} (f : A -> B) (l : list A) (k : nat) (x : A) :
  nth_error l k = Some x -> nth_error (map f l) k = Some (f x).
Proof. intro H. now rewrite nth_error_map, H. Qed.

(** C3 (amended).  With a coordinate array and a mask of the same length,
    ['left'] masks every source whose first coordinate is >= 0 and unmasks
    every other source; ['right'] masks every source whose first coordinate
    is <= 0 and unmasks every other source.  Nothing else of the object
    changes, and the two re-render calls are made. *)
Theorem C3_hemisphere_selectors_mask (self : SourcesTransform) (xyz : list point) :
  Sources.xyz (sources self) = Some xyz ->
  List.length (data_mask self) = List.length xyz ->
  (exists m,
     s_display self "left"
     = ([sources_update; sources_text_update], Ok (set_data_mask self m))
     /\ List.length m = List.length xyz
     /\ forall k p, nth_error xyz k = Some p ->
          (0 <= col0 p -> nth_error m k = Some true)
          /\ (col0 p < 0 -> nth_error m k = Some false))
  /\
  (exists m,
     s_display self "right"
     = ([sources_update; sources_text_update], Ok (set_data_mask self m))
     /\ List.length m = List.length xyz
     /\ forall k p, nth_error xyz k = Some p ->
          (col0 p <= 0 -> nth_error m k = Some true)
          /\ (0 < col0 p -> nth_error m k = Some false)).
Proof.
  intros Hxyz Hlen. split.
  - exists (map (fun p => Np.le 0 (col0 p)) xyz).
    split; [now apply s_display_left |].
    split; [apply length_map |].
    intros k p Hk. rewrite (nth_error_map_some _ _ _ _ Hk).
    split; intro H; [now rewrite le_true | now rewrite le_false].
  - exists (map (fun p => Np.le (col0 p) 0) xyz).
    split; [now apply s_display_right |].
    split; [apply length_map |].
    intros k p Hk. rewrite (nth_error_map_some _ _ _ _ Hk).
    split; intro H; [now rewrite le_true | now rewrite le_false].
Qed.

Lemma C3_hemisphere_selectors_mask_witness :
  let xyz := [(1, 0, 0); (-1, 0, 0)] in
  let self := scene 10 [] (Some xyz) [2; 3] [false; false] in
  (exists m,
     s_display self "left"
     = ([sources_update; sources_text_update], Ok (set_data_mask self m))
     /\ List.length m = List.length xyz
     /\ forall k p, nth_error xyz k = Some p ->
          (0 <= col0 p -> nth_error m k = Some true)
          /\ (col0 p < 0 -> nth_error m k = Some false))
  /\
  (exists m,
     s_display self "right"
     = ([sources_update; sources_text_update], Ok (set_data_mask self m))
     /\ List.length m = List.length xyz
     /\ forall k p, nth_error xyz k = Some p ->
          (col0 p <= 0 -> nth_error m k = Some true)
          /\ (0 < col0 p -> nth_error m k = Some false)).
Proof.
  intros xyz self.
  apply (C3_hemisphere_selectors_mask self xyz); reflexivity.
Defined.

(** C3 as stated fails: the source at (1, 0, 0) has a first coordinate >= 0
    and ['left'] leaves it masked, not unmasked. *)
Lemma C3_left_unmasks_nonnegative_fails :
  let xyz := [(1, 0, 0); (-1, 0, 0)] in
  let self := scene 10 [] (Some xyz) [2; 3] [false; false] in
  ~ (forall self', snd (s_display self "left") = Ok self' ->
     forall k p, nth_error xyz k = Some p ->
       (0 <= col0 p -> nth_error (data_mask self') k = Some false)
       /\ (~ 0 <= col0 p -> nth_error (data_mask self') k = Some true)).
Proof.
  intros xyz self Hclaim.
  assert (Hrun : s_display self "left"
                 = ([sources_update; sources_text_update],
                    Ok (set_data_mask self
                          (map (fun p => Np.le 0 (col0 p)) xyz))))
    by (apply s_display_left; reflexivity).
  specialize (Hclaim _ (f_equal snd Hrun) 0%nat (1, 0, 0) eq_refl).
  destruct Hclaim as [H _].
  assert (Hpos : 0 <= col0 (1, 0, 0)) by (unfold col0; simpl; lra).
  specialize (H Hpos). unfold xyz in H. simpl in H.
  rewrite le_true in H by lra. discriminate.
Qed.

(** C10. A selector that is none of the six names changes nothing of the
    object, raises nothing, and the two re-render calls are made. *)
Theorem C10_unknown_selector_is_noop (self : SourcesTransform) (select : string) :
  select <> "all"%string -> select <> "none"%string ->
  select <> "left"%string -> select <> "right"%string ->
  select <> "inside"%string -> select <> "outside"%string ->
  s_display self select = ([sources_update; sources_text_update], Ok self).
Proof.
  intros Ha Hn Hl Hr Hi Ho.
  apply String.eqb_neq in Ha, Hn, Hl, Hr, Hi, Ho.
  unfold s_display, str_in. cbn [existsb].
  rewrite Ha, Hn, Hl, Hr, Hi, Ho. reflexivity.
Qed.

Lemma C10_unknown_selector_is_noop_witness :
  let self := scene 10 [] (Some [(1, 0, 0)]) [2] [true] in
  s_display self "both" = ([sources_update; sources_text_update], Ok self).
Proof.
  intro self.
  apply (C10_unknown_selector_is_noop self "both"); discriminate.
Defined.

(** *** The containment selectors *)

Lemma isInside_total (vert : list point) (p : point) :
  vert <> [] -> _isInside vert p false = Ok (classified_inside vert p).
Proof.
  intro Hv. unfold classified_inside, _isInside, _closest_vertex, eucl_of.
  destruct vert as [|v vert]; [contradiction |].
  reflexivity.
Qed.

Lemma set_data_mask_same (self : SourcesTransform) :
  set_data_mask self (data_mask self) = self.
Proof.
  destruct self as [r cm cnz [x [vals m]] a c v1 v2 u o l f ov s1 s2 mo xo].
  reflexivity.
Qed.

Lemma set_data_mask_twice (self : SourcesTransform) (m1 m2 : list bool) :
  set_data_mask (set_data_mask self m1) m2 = set_data_mask self m2.
Proof. reflexivity. Qed.

Lemma setitem_length {A : Type} (a : list A) (k : nat) (v : A) :
  List.length (setitem a k v) = List.length a.
Proof.
  revert k. induction a as [|x a IH]; intros [|k]; simpl; try reflexivity.
  now rewrite IH.
Qed.

Lemma firstn_setitem {A : Type} (a : list A) (k : nat) (v : A) :
  (k < List.length a)%nat ->
  firstn (S k) (setitem a k v) = firstn k a ++ [v].
Proof.
  revert k. induction a as [|x a IH]; intros k Hk; simpl in Hk; [lia |].
  destruct k as [|k]; [reflexivity |].
  cbn [setitem]. rewrite firstn_cons, IH by lia. reflexivity.
Qed.

Lemma containment_loop (flip : bool) (N : nat) (pts : list point) :
  forall (s : nat) (self : SourcesTransform),
  Atlas.vert (atlas self) <> [] ->
  List.length (data_mask self) = (s + List.length pts)%nat ->
  for_each (combine (seq s (List.length pts)) pts) (s_display_body flip N) self
  = (map (fun k => progressbar_setValue (100 * INR k / INR N))
       (seq s (List.length pts)),
     Ok (set_data_mask self
           (firstn s (data_mask self)
            ++ map (written flip (Atlas.vert (atlas self))) pts))).
Proof.
  induction pts as [|p pts IH]; intros s self Hv Hlen.
  - cbn [List.length seq combine for_each map ret].
    rewrite app_nil_r, firstn_all2 by (simpl in Hlen; lia).
    now rewrite set_data_mask_same.
  - cbn [List.length seq combine for_each].
    unfold s_display_body at 1.
    rewrite (isInside_total _ p Hv).
    unfold setitem_at. fold (data_mask self).
    assert (Hs : (s < List.length (data_mask self))%nat)
      by (rewrite Hlen; simpl; lia).
    apply Nat.ltb_lt in Hs as Hs'. rewrite Hs'.
    cbn [emit lift ret bind app].
    fold (written flip (Atlas.vert (atlas self)) p).
    set (v := written flip (Atlas.vert (atlas self)) p).
    set (self1 := set_data_mask self (setitem (data_mask self) s v)).
    specialize (IH (S s) self1 Hv).
    assert (Hm1 : data_mask self1 = setitem (data_mask self) s v) by reflexivity.
    rewrite Hm1, setitem_length in IH.
    specialize (IH ltac:(rewrite Hlen; simpl; lia)).
    rewrite IH.
    cbn [map app]. f_equal. f_equal.
    unfold self1. rewrite set_data_mask_twice.
    rewrite firstn_setitem by assumption.
    rewrite <- app_assoc. reflexivity.
Qed.

Lemma s_display_inside (self : SourcesTransform) (pts : list point) :
  Sources.xyz (sources self) = Some pts ->
  List.length (data_mask self) = List.length pts ->
  Atlas.vert (atlas self) <> [] ->
  s_display self "inside"
  = (containment_trace (List.length pts),
     Ok (set_data_mask self
           (map (fun p => negb (classified_inside (Atlas.vert (atlas self)) p))
              pts))).
Proof.
  intros Hxyz Hlen Hv. unfold s_display, sources_rows. rewrite Hxyz.
  cbn [str_in existsb String.eqb Ascii.eqb Bool.eqb orb lift].
  unfold enumerate.
  pose proof (containment_loop true (List.length pts) pts 0 self Hv Hlen) as H.
  cbn [firstn app] in H.
  cbn [bind emit ret app lift]. rewrite H. cbn [bind app].
  unfold containment_trace. rewrite <- app_assoc. reflexivity.
Qed.

Lemma s_display_outside (self : SourcesTransform) (pts : list point) :
  Sources.xyz (sources self) = Some pts ->
  List.length (data_mask self) = List.length pts ->
  Atlas.vert (atlas self) <> [] ->
  s_display self "outside"
  = (containment_trace (List.length pts),
     Ok (set_data_mask self
           (map (fun p => classified_inside (Atlas.vert (atlas self)) p) pts))).
Proof.
  intros Hxyz Hlen Hv. unfold s_display, sources_rows. rewrite Hxyz.
  cbn [str_in existsb String.eqb Ascii.eqb Bool.eqb orb lift].
  unfold enumerate.
  pose proof (containment_loop false (List.length pts) pts 0 self Hv Hlen) as H.
  cbn [firstn app] in H.
  cbn [bind emit ret app lift]. rewrite H. cbn [bind app].
  unfold containment_trace. rewrite <- app_assoc. reflexivity.
Qed.

Ltac eval_isInside :=
  unfold classified_inside, _isInside, _closest_vertex, eucl_of, same_side;
  cbn [map np_min Np.min1 fold_left res_bind negb band col0 fst row_sub
       row_square_sum];
  np_decide;
  cbn [andb Np.where_ Np.where_from rows map nth square_sum fold_right
       row_square_sum].

Lemma inside_example : classified_inside [(2, 0, 0)] (1, 0, 0) = true.
Proof. eval_isInside. apply lt_true, sqrt_lt_1; lra. Qed.

Lemma outside_example : classified_inside [(2, 0, 0)] (3, 0, 0) = false.
Proof. eval_isInside. apply lt_false, sqrt_le_1; lra. Qed.

(** C4 (amended).  With a coordinate array, a mask of the same length and
    at least one vertex, ['inside'] leaves a source unmasked exactly when
    [_isInside] answers true for it (it writes the negation of the answer),
    and ['outside'] leaves a source unmasked exactly when [_isInside] answers
    false (it writes the answer).  Progress is reported once per source,
    between [show] and [hide], and the two re-render calls follow. *)
Theorem C4_containment_selectors (self : SourcesTransform) (pts : list point) :
  Sources.xyz (sources self) = Some pts ->
  List.length (data_mask self) = List.length pts ->
  Atlas.vert (atlas self) <> [] ->
  (exists m,
     s_display self "inside"
     = (containment_trace (List.length pts), Ok (set_data_mask self m))
     /\ List.length m = List.length pts
     /\ forall k p, nth_error pts k = Some p ->
          exists b, _isInside (Atlas.vert (atlas self)) p false = Ok b
                    /\ nth_error m k = Some (negb b))
  /\
  (exists m,
     s_display self "outside"
     = (containment_trace (List.length pts), Ok (set_data_mask self m))
     /\ List.length m = List.length pts
     /\ forall k p, nth_error pts k = Some p ->
          exists b, _isInside (Atlas.vert (atlas self)) p false = Ok b
                    /\ nth_error m k = Some b).
Proof.
  intros Hxyz Hlen Hv. split.
  - eexists. split; [now apply s_display_inside |].
    split; [apply length_map |].
    intros k p Hk. exists (classified_inside (Atlas.vert (atlas self)) p).
    split; [now apply isInside_total |].
    now rewrite (nth_error_map_some _ _ _ _ Hk).
  - eexists. split; [now apply s_display_outside |].
    split; [apply length_map |].
    intros k p Hk. exists (classified_inside (Atlas.vert (atlas self)) p).
    split; [now apply isInside_total |].
    now rewrite (nth_error_map_some _ _ _ _ Hk).
Qed.

Lemma C4_containment_selectors_witness :
  let pts := [(1, 0, 0); (3, 0, 0)] in
  let self := scene 10 [(2, 0, 0)] (Some pts) [2; 3] [true; true] in
  (exists m,
     s_display self "inside"
     = (containment_trace (List.length pts), Ok (set_data_mask self m))
     /\ List.length m = List.length pts
     /\ forall k p, nth_error pts k = Some p ->
          exists b, _isInside (Atlas.vert (atlas self)) p false = Ok b
                    /\ nth_error m k = Some (negb b))
  /\
  (exists m,
     s_display self "outside"
     = (containment_trace (List.length pts), Ok (set_data_mask self m))
     /\ List.length m = List.length pts
     /\ forall k p, nth_error pts k = Some p ->
          exists b, _isInside (Atlas.vert (atlas self)) p false = Ok b
                    /\ nth_error m k = Some b).
Proof.
  intros pts self.
  apply (C4_containment_selectors self pts);
    [reflexivity | reflexivity | discriminate].
Defined.

(** C4 as stated fails: with the only vertex at (2, 0, 0), [_isInside]
    answers true for the source at (1, 0, 0), and ['inside'] leaves this
    source unmasked. *)
Lemma C4_inside_unmasks_outside_fails :
  let vert := [(2, 0, 0)] in
  let pts := [(1, 0, 0)] in
  let self := scene 10 vert (Some pts) [2] [true] in
  ~ (forall self', snd (s_display self "inside") = Ok self' ->
     forall k p, nth_error pts k = Some p ->
       (nth_error (data_mask self') k = Some false
        <-> _isInside vert p false = Ok false)).
Proof.
  intros vert pts self Hclaim.
  assert (Hrun : s_display self "inside"
                 = (containment_trace (List.length pts),
                    Ok (set_data_mask self
                          (map (fun p => negb (classified_inside vert p)) pts))))
    by (apply (s_display_inside self pts); [reflexivity | reflexivity | discriminate]).
  specialize (Hclaim _ (f_equal snd Hrun) 0%nat (1, 0, 0) eq_refl).
  destruct Hclaim as [H _].
  assert (Hm : nth_error
                 (data_mask
                    (set_data_mask self
                       (map (fun p => negb (classified_inside vert p)) pts)))
                 0 = Some false).
  { unfold pts, vert. cbn [data_mask set_data_mask sources Sources.data
                          Ma.mask map nth_error].
    now rewrite inside_example. }
  specialize (H Hm).
  unfold vert in H.
  rewrite isInside_total in H by discriminate.
  rewrite inside_example in H. discriminate.
Qed.

(** ** _get_mask: the loop, one source at a time *)

Lemma setitem_middle {A : Type} (pre rest : list A) (x v : A) :
  setitem (pre ++ x :: rest) (List.length pre) v = pre ++ v :: rest.
Proof.
  induction pre as [|y pre IH]; simpl; [reflexivity | now rewrite IH].
Qed.

Lemma app_cons_assoc {A : Type} (pre rest : list A) (x : A) :
  pre ++ x :: rest = (pre ++ [x]) ++ rest.
Proof. now rewrite <- app_assoc. Qed.

Lemma length_snoc {A : Type} (pre : list A) (x : A) :
  List.length (pre ++ [x]) = S (List.length pre).
Proof. rewrite length_app. simpl. lia. Qed.

Lemma in_range_where (cond : list bool) :
  forall s n, (s + List.length cond <= n)%nat ->
  in_range n (Np.where_from s cond) = true.
Proof.
  unfold in_range.
  induction cond as [|b cond IH]; intros s n H; simpl in *; [reflexivity |].
  assert (Hs : (s <? n)%nat = true) by (apply Nat.ltb_lt; lia).
  destruct b; simpl; rewrite ?Hs; apply IH; lia.
Qed.

Section Where.

Variable c : point -> bool.

Lemma incr_at_where :
  forall (vrest : list point) (pre rest : list Z),
  List.length rest = List.length vrest ->
  incr_at (pre ++ rest) (Np.where_from (List.length pre) (map c vrest))
  = pre ++ zip_with (fun x v => if c v then (x + 1)%Z else x) rest vrest.
Proof.
  induction vrest as [|v vrest IH]; intros pre [|x rest] H; simpl in H;
    try discriminate; [reflexivity |].
  injection H as H. cbn [map Np.where_from zip_with].
  destruct (c v).
  - cbn [incr_at]. rewrite nth_middle, setitem_middle.
    rewrite app_cons_assoc, <- (length_snoc pre (x + 1)%Z).
    rewrite (IH (pre ++ [(x + 1)%Z]) rest H).
    now rewrite <- app_assoc.
  - rewrite app_cons_assoc, <- (length_snoc pre x).
    rewrite (IH (pre ++ [x]) rest H).
    now rewrite <- app_assoc.
Qed.

Variable e : point -> R.
Variable g : R -> R.

Lemma iadd_at_where :
  forall (vrest vpre : list point) (pre rest : list R),
  List.length pre = List.length vpre ->
  List.length rest = List.length vrest ->
  iadd_at (pre ++ rest)
    (Np.where_from (List.length vpre) (map c vrest))
    (map (fun i => g (nth i (map e (vpre ++ vrest)) 0))
       (Np.where_from (List.length vpre) (map c vrest)))
  = pre ++ zip_with (fun m v => if c v then m + g (e v) else m) rest vrest.
Proof.
  induction vrest as [|v vrest IH]; intros vpre pre [|x rest] Hpre H;
    simpl in H; try discriminate; [reflexivity |].
  injection H as H. cbn [map Np.where_from zip_with].
  destruct (c v).
  - cbn [map iadd_at].
    rewrite <- Hpre at 1 2. rewrite nth_middle, setitem_middle.
    rewrite map_app. cbn [map].
    rewrite <- (length_map e vpre) at 1. rewrite nth_middle.
    rewrite <- map_cons, <- map_app.
    rewrite (app_cons_assoc vpre vrest v), <- (length_snoc vpre v).
    rewrite (app_cons_assoc pre rest).
    rewrite (IH (vpre ++ [v]) (pre ++ [x + g (e v)]) rest);
      [now rewrite <- app_assoc | rewrite !length_snoc; lia | assumption].
  - rewrite (app_cons_assoc vpre vrest v), <- (length_snoc vpre v).
    rewrite (app_cons_assoc pre rest).
    rewrite (IH (vpre ++ [v]) (pre ++ [x]) rest);
      [now rewrite <- app_assoc | rewrite !length_snoc; lia | assumption].
Qed.

End Where.

Lemma band_map {A : Type} (f h : A -> bool) (l : list A) :
  band (map f l) (map h l) = map (fun x => f x && h x) l.
Proof. induction l as [|x l IH]; simpl; [reflexivity | now rewrite IH]. Qed.

Lemma zip_with_length {A B C : Type} (f : A -> B -> C) (a : list A) (b : list B) :
  List.length a = List.length b ->
  List.length (zip_with f a b) = List.length b.
Proof.
  revert b. induction a as [|x a IH]; intros [|y b] H; simpl in *;
    try discriminate; [reflexivity |].
  injection H as H. now rewrite IH.
Qed.

(** The proximal vertices of a source are the vertices it reaches. *)
Lemma proximal_vertices_reaches (vert : list point) (p : point) (r : R)
    (contribute : bool) :
  _proximal_vertices vert p r contribute
  = (Np.where_ (map (reaches r contribute p) vert),
     map (fun i => nth i (map (fun v => dist v p) vert) 0)
       (Np.where_ (map (reaches r contribute p) vert))).
Proof.
  unfold _proximal_vertices, take, eucl_of, same_side, reaches, dist.
  destruct contribute; cbn [negb].
  - rewrite map_map. reflexivity.
  - rewrite map_map, band_map. reflexivity.
Qed.

(** One turn of the loop, when the two arrays have one entry per vertex and
    the source [k] exists. *)
Lemma get_mask_body_step (self : SourcesTransform) (vert xyz : list point)
    (data : Ma.t) (contribute : bool) (N i k : nat)
    (prop : list Z) (mask : list R) (p : point) (d : R) :
  List.length prop = List.length vert ->
  List.length mask = List.length vert ->
  nth_error xyz k = Some p ->
  nth_error (Ma.values data) k = Some d ->
  _get_mask_body self vert xyz data contribute N (prop, mask) (i, k)
  = ([progressbar_setValue (100 * INR k / INR N)],
     Ok (add_source (radius self) contribute vert (prop, mask) (p, d))).
Proof.
  intros Hprop Hmask Hp Hd.
  unfold _get_mask_body, getitem. rewrite Hp, Hd.
  cbn [lift bind emit app].
  rewrite proximal_vertices_reaches.
  unfold iadd_setitem, incr_setitem, Np.where_.
  rewrite !in_range_where by (rewrite length_map; simpl; lia).
  pose proof (incr_at_where (reaches (radius self) contribute p) vert [] prop Hprop)
    as Hi. cbn [app List.length] in Hi. rewrite Hi.
  unfold normalize. rewrite !map_map.
  pose proof (iadd_at_where (reaches (radius self) contribute p)
                (fun v => dist v p)
                (fun x => d * Rmax 0 (Rmin 1 (1 - x / radius self)))
                vert [] [] mask eq_refl Hmask) as Ha.
  cbn [app List.length] in Ha. rewrite Ha.
  reflexivity.
Qed.

Lemma add_source_lengths (r : R) (contribute : bool) (vert : list point)
    (prop : list Z) (mask : list R) (src : point * R) :
  List.length prop = List.length vert ->
  List.length mask = List.length vert ->
  List.length (fst (add_source r contribute vert (prop, mask) src))
  = List.length vert
  /\ List.length (snd (add_source r contribute vert (prop, mask) src))
     = List.length vert.
Proof.
  intros Hp Hm. destruct src as [p d]. cbn [add_source fst snd].
  split; now apply zip_with_length.
Qed.

Section Loop.

Variables (self : SourcesTransform) (vert : list point) (data : Ma.t).
Variables (contribute : bool) (N : nat).

(** The loop goes through the sources that are not masked, in order; the
    value it reports for the source at position [k] is [100*k/N]. *)
Lemma get_mask_loop :
  forall (srest spre : list (point * R)) (mrest : list bool) (i : nat)
         (prop : list Z) (mask : list R),
  Ma.values data = map snd (spre ++ srest) ->
  List.length mrest = List.length srest ->
  List.length prop = List.length vert ->
  List.length mask = List.length vert ->
  let W := Np.where_from (List.length spre)
             (map (fun b => Bool.eqb b false) mrest) in
  for_each (combine (seq i (List.length W)) W)
    (_get_mask_body self vert (map fst (spre ++ srest)) data contribute N)
    (prop, mask)
  = (map (fun k => progressbar_setValue (100 * INR k / INR N)) W,
     Ok (fold_left (add_source (radius self) contribute vert)
           (Np.select srest (map negb mrest)) (prop, mask))).
Proof.
  induction srest as [|[p d] srest IH];
    intros spre [|b mrest] i prop mask Hv Hm Hprop Hmask;
    simpl in Hm; try discriminate; [reflexivity |].
  injection Hm as Hm.
  assert (Hv' : Ma.values data = map snd ((spre ++ [(p, d)]) ++ srest))
    by (now rewrite <- app_assoc).
  pose proof (IH (spre ++ [(p, d)]) mrest) as IH'.
  rewrite length_snoc in IH'. rewrite <- app_assoc in IH'. cbn [app] in IH'.
  destruct b; cbn [map Bool.eqb Np.where_from negb Np.select].
  - exact (IH' i prop mask Hv Hm Hprop Hmask).
  - cbn [List.length seq combine for_each fold_left].
    assert (Hp : nth_error (map fst (spre ++ (p, d) :: srest)) (List.length spre)
                 = Some p).
    { rewrite map_app, nth_error_app2 by (rewrite length_map; lia).
      now rewrite length_map, Nat.sub_diag. }
    assert (Hd : nth_error (Ma.values data) (List.length spre) = Some d).
    { rewrite Hv, map_app, nth_error_app2 by (rewrite length_map; lia).
      now rewrite length_map, Nat.sub_diag. }
    rewrite (get_mask_body_step self vert _ data contribute N i
               (List.length spre) prop mask p d Hprop Hmask Hp Hd).
    destruct (add_source_lengths (radius self) contribute vert prop mask
                (p, d) Hprop Hmask) as [L1 L2].
    destruct (add_source (radius self) contribute vert (prop, mask) (p, d))
      as [prop' mask'] eqn:Hstep.
    cbn [fst snd] in L1, L2.
    cbn [bind]. rewrite (IH' (S i) prop' mask' Hv Hm L1 L2).
    reflexivity.
Qed.

End Loop.

Lemma map_fst_combine {A B : Type} (a : list A) (b : list B) :
  List.length a = List.length b -> map fst (combine a b) = a.
Proof.
  revert b. induction a as [|x a IH]; intros [|y b] H; simpl in *;
    try discriminate; [reflexivity |].
  injection H as H. now rewrite IH.
Qed.

Lemma map_snd_combine {A B : Type} (a : list A) (b : list B) :
  List.length a = List.length b -> map snd (combine a b) = b.
Proof.
  revert b. induction a as [|x a IH]; intros [|y b] H; simpl in *;
    try discriminate; [reflexivity |].
  injection H as H. now rewrite IH.
Qed.

Lemma initial_prop (set_to : Z) (nv : nat) :
  (if Z.eqb set_to 0 then repeat 0%Z nv
   else map (fun one => (set_to * one)%Z) (repeat 1%Z nv))
  = repeat set_to nv.
Proof.
  destruct (Z.eqb_spec set_to 0) as [-> | _]; [reflexivity |].
  induction nv as [|n IH]; simpl; [reflexivity |].
  rewrite IH. f_equal. lia.
Qed.

(** [_get_mask] as a fold over the sources that are not masked. *)
Lemma get_mask_fold (self : SourcesTransform) (vert xyz : list point)
    (data : Ma.t) (set_to : Z) (contribute : bool) :
  List.length xyz = List.length (Ma.values data) ->
  List.length (Ma.mask data) = List.length (Ma.values data) ->
  _get_mask self (List.length vert) vert xyz data set_to contribute
  = (map (fun k => progressbar_setValue
                     (100 * INR k / INR (List.length (idxunmasked_of data))))
       (idxunmasked_of data),
     Ok (fold_left (add_source (radius self) contribute vert)
           (active_sources xyz data)
           (repeat set_to (List.length vert), repeat 0 (List.length vert)))).
Proof.
  intros Hxyz Hmask. unfold _get_mask, enumerate, active_sources, idxunmasked_of.
  rewrite initial_prop.
  pose proof (get_mask_loop self vert data contribute
                (List.length (Np.where_ (map (fun b => Bool.eqb b false) (Ma.mask data))))
                (combine xyz (Ma.values data)) [] (Ma.mask data) 0
                (repeat set_to (List.length vert))
                (repeat 0 (List.length vert))) as H.
  cbn [app List.length] in H.
  rewrite (map_fst_combine _ _ Hxyz) in H.
  rewrite (map_snd_combine _ _ Hxyz) in H.
  apply H; try reflexivity.
  - rewrite length_combine, Hxyz, Nat.min_id. exact Hmask.
  - apply repeat_length.
  - apply repeat_length.
Qed.

(** ** _get_mask: the two arrays, vertex by vertex *)

Lemma zip_with_ext {A B C : Type} (f f' : A -> B -> C) (a : list A) (b : list B) :
  (forall x y, f x y = f' x y) -> zip_with f a b = zip_with f' a b.
Proof.
  intro H. revert b. induction a as [|x a IH]; intros [|y b]; simpl;
    try reflexivity. now rewrite H, IH.
Qed.

Lemma zip_with_zip_with {A B : Type} (f g : A -> B -> A) (a : list A) (b : list B) :
  zip_with f (zip_with g a b) b = zip_with (fun x y => f (g x y) y) a b.
Proof.
  revert b. induction a as [|x a IH]; intros [|y b]; simpl; try reflexivity.
  now rewrite IH.
Qed.

Lemma zip_with_keep {A B : Type} (a : list A) (b : list B) :
  List.length a = List.length b -> zip_with (fun x _ => x) a b = a.
Proof.
  revert b. induction a as [|x a IH]; intros [|y b] H; simpl in *;
    try discriminate; [reflexivity |].
  injection H as H. now rewrite IH.
Qed.

Lemma zip_with_repeat {A B C : Type} (f : A -> B -> C) (x : A) (b : list B) :
  zip_with f (repeat x (List.length b)) b = map (f x) b.
Proof. induction b as [|y b IH]; simpl; [reflexivity | now rewrite IH]. Qed.

Section Fold.

Variables (r : R) (contribute : bool) (vert : list point).

Lemma fold_add_source :
  forall (srcs : list (point * R)) (prop : list Z) (mask : list R),
  List.length prop = List.length vert ->
  List.length mask = List.length vert ->
  fold_left (add_source r contribute vert) srcs (prop, mask)
  = (zip_with (fun x v => (x + Z.of_nat (contributors r contribute srcs v))%Z)
       prop vert,
     zip_with
       (fun m v =>
          fold_left
            (fun acc src =>
               if reaches r contribute (fst src) v
               then acc + snd src * weight r (dist v (fst src)) else acc)
            srcs m)
       mask vert).
Proof.
  induction srcs as [|[p d] srcs IH]; intros prop mask Hp Hm.
  - cbn [fold_left contributors filter List.length Z.of_nat].
    rewrite (zip_with_ext _ (fun x _ => x)) by (intros; lia).
    now rewrite !zip_with_keep.
  - cbn [fold_left].
    destruct (add_source_lengths r contribute vert prop mask (p, d) Hp Hm)
      as [L1 L2].
    unfold add_source in *. cbn [fst snd] in L1, L2.
    rewrite (IH _ _ L1 L2), !zip_with_zip_with.
    f_equal.
    apply zip_with_ext. intros x v. unfold contributors.
    cbn [filter fst]. destruct (reaches r contribute p v); cbn [List.length]; lia.
Qed.

End Fold.

(** [_get_mask] on well-formed arrays: it returns; [prop] at a vertex is
    [set_to] plus the number of unmasked sources that reach the vertex, and
    [mask] is the sum of their values, each times its weight. *)
Lemma get_mask_spec (self : SourcesTransform) (vert xyz : list point)
    (data : Ma.t) (set_to : Z) (contribute : bool) :
  List.length xyz = List.length (Ma.values data) ->
  List.length (Ma.mask data) = List.length (Ma.values data) ->
  _get_mask self (List.length vert) vert xyz data set_to contribute
  = (map (fun k => progressbar_setValue
                     (100 * INR k / INR (List.length (idxunmasked_of data))))
       (idxunmasked_of data),
     Ok (map (fun v =>
                (set_to + Z.of_nat (contributors (radius self) contribute
                                      (active_sources xyz data) v))%Z) vert,
         map (accumulated (radius self) contribute (active_sources xyz data))
           vert)).
Proof.
  intros Hxyz Hmask. rewrite (get_mask_fold self vert xyz data set_to contribute Hxyz Hmask).
  rewrite fold_add_source by apply repeat_length.
  now rewrite !zip_with_repeat.
Qed.

Lemma progress_values_setValue (f : nat -> R) (ks : list nat) :
  progress_values (map (fun k => progressbar_setValue (f k)) ks) = map f ks.
Proof. induction ks as [|k ks IH]; simpl; [reflexivity | now rewrite IH]. Qed.

Lemma divide_by_map (f : point -> R) (g : point -> Z) (vert : list point) :
  divide_by (map f vert) (map g vert) = map (fun v => f v / IZR (g v)) vert.
Proof. induction vert as [|v vert IH]; simpl; [reflexivity | now rewrite IH]. Qed.

(** [np.divide(mask, prop)] in [cortical_projection]: at every vertex, the
    weighted sum over one plus the number of sources that reach it. *)
Lemma projection_values_spec (self : SourcesTransform) (xyz : list point) :
  Atlas._nv (atlas self) = List.length (Atlas.vert (atlas self)) ->
  List.length xyz = List.length (Ma.values (Sources.data (sources self))) ->
  List.length (data_mask self)
  = List.length (Ma.values (Sources.data (sources self))) ->
  let data := Sources.data (sources self) in
  let srcs := active_sources xyz data in
  projection_values self xyz
  = (map (fun k => progressbar_setValue
                     (100 * INR k / INR (List.length (idxunmasked_of data))))
       (idxunmasked_of data),
     Ok (map (fun v =>
                accumulated (radius self) false srcs v
                / IZR (1 + Z.of_nat (contributors (radius self) false srcs v)))
           (Atlas.vert (atlas self)))).
Proof.
  intros Hnv Hxyz Hmask data srcs. unfold projection_values.
  rewrite Hnv.
  rewrite (get_mask_spec self _ xyz data 1 false Hxyz Hmask).
  cbn [bind ret]. rewrite app_nil_r, divide_by_map. reflexivity.
Qed.

(** *** Every source masked *)

Lemma filter_all_false {A : Type} (p : A -> bool) (l : list A) :
  (forall x, In x l -> p x = false) -> filter p l = [].
Proof.
  induction l as [|y l IH]; simpl; intro H; [reflexivity |].
  rewrite (H y (or_introl eq_refl)). apply IH. intros x Hx. apply H. now right.
Qed.

Lemma rescale_all_val (cort : list R) (to_min to_max val : R) :
  (forall x, In x cort -> x = val) ->
  _rescale_cmap cort to_min to_max val = Raise ValueError.
Proof.
  intro H. rewrite rescale_closed_form, filter_all_false; [reflexivity |].
  intros x Hx. apply ne_false. now apply H.
Qed.

Lemma select_combine_nil {A B : Type} (a : list A) (b : list B) (m : list bool) :
  List.length a = List.length b ->
  Np.select b m = [] -> Np.select (combine a b) m = [].
Proof.
  revert b m. induction a as [|x a IH]; intros [|y b] [|c m] H Hs; simpl in *;
    try reflexivity; try discriminate.
  injection H as H. destruct c; [discriminate | now apply IH].
Qed.


(** [self.sources.data.min()] is the constant [masked] only when no source
    is unmasked; the quotient array is then 0 everywhere and [_rescale_cmap]
    raises ValueError whatever [to_min] and [to_max] are. *)
Lemma projection_all_masked (self : SourcesTransform) (xyz : list point) :
  Atlas._nv (atlas self) = List.length (Atlas.vert (atlas self)) ->
  List.length xyz = List.length (Ma.values (Sources.data (sources self))) ->
  List.length (data_mask self)
  = List.length (Ma.values (Sources.data (sources self))) ->
  Ma.min (Sources.data (sources self)) = None ->
  exists cort,
    snd (projection_values self xyz) = Ok cort
    /\ forall to_min to_max, _rescale_cmap cort to_min to_max 0 = Raise ValueError.
Proof.
  intros Hnv Hxyz Hmask Hmin.
  rewrite (projection_values_spec self xyz Hnv Hxyz Hmask).
  eexists. split; [reflexivity |].
  intros to_min to_max. apply rescale_all_val.
  intros x Hx. apply in_map_iff in Hx. destruct Hx as [v [<- _]].
  assert (Hact : active_sources xyz (Sources.data (sources self)) = []).
  { unfold active_sources. apply select_combine_nil; [assumption |].
    unfold Ma.min, Ma.unmasked in Hmin.
    destruct (Np.select (Ma.values (Sources.data (sources self)))
                (map negb (Ma.mask (Sources.data (sources self)))));
      [reflexivity | discriminate]. }
  rewrite Hact. unfold accumulated. cbn [fold_left].
  unfold Rdiv. apply Rmult_0_l.
Qed.

(** ** The constructor *)

(** C6. Whatever [t_radius] the constructor receives, the radius it stores
    is 10: the chained assignment overwrites the argument.  With
    [t_radius = 5] the stored radius is not 5. *)
Theorem C6_constructor_radius_is_ten :
  (forall self t_radius, radius (__init__ self t_radius) = 10)
  /\ (forall self, radius (__init__ self 5) <> 5).
Proof.
  split.
  - intros self t_radius. reflexivity.
  - intro self. unfold __init__. cbn [set_current_mask set_radius radius]. lra.
Qed.

(** ** The falloff weight *)

Lemma weight_at_zero (r : R) : 0 < r -> weight r 0 = 1.
Proof.
  intro Hr. unfold weight. replace (1 - 0 / r) with 1 by (field; lra).
  rewrite Rmin_left, Rmax_right by lra. reflexivity.
Qed.

Lemma weight_at_radius (r : R) : 0 < r -> weight r r = 0.
Proof.
  intro Hr. unfold weight. replace (1 - r / r) with 0 by (field; lra).
  rewrite Rmin_right, Rmax_left by lra. reflexivity.
Qed.

Lemma weight_linear (r d : R) : 0 < r -> 0 <= d <= r -> weight r d = 1 - d / r.
Proof.
  intros Hr [H0 H1]. unfold weight.
  assert (Hq : 0 <= d / r <= 1).
  { split.
    - apply Rle_mult_inv_pos; assumption.
    - apply (Rmult_le_reg_r r); [assumption |].
      unfold Rdiv. rewrite Rmult_assoc, Rinv_l by lra. lra. }
  rewrite Rmin_right, Rmax_right by lra. reflexivity.
Qed.

Lemma weight_bounds (r d : R) : 0 <= weight r d <= 1.
Proof.
  unfold weight. split.
  - apply Rmax_l.
  - apply Rmax_lub; [lra | apply Rmin_l].
Qed.

Lemma accumulated_single (r : R) (contribute : bool) (p v : point) (d : R) :
  reaches r contribute p v = true ->
  accumulated r contribute [(p, d)] v = d * weight r (dist v p).
Proof.
  intro H. unfold accumulated. cbn [fold_left fst snd]. rewrite H. lra.
Qed.

Lemma contributors_single (r : R) (contribute : bool) (p v : point) (d : R) :
  reaches r contribute p v = true ->
  contributors r contribute [(p, d)] v = 1%nat.
Proof.
  intro H. unfold contributors. cbn [filter fst]. now rewrite H.
Qed.

(** C2. The weight of a source at distance [d] of a vertex is 1 at distance
    0, 0 at distance [radius], [1 - d/radius] in between, and never leaves
    [[0, 1]].  The loop of [_get_mask] returns, and [mask] at a vertex is the
    sum, over the unmasked sources that reach the vertex, of the value of the
    source times this weight.  When a single source is not masked, [mask] at
    a vertex it reaches is its value times the weight, and this is 0 when the
    vertex lies at distance exactly [radius] > 0. *)
Theorem C2_linear_falloff_weight (self : SourcesTransform)
    (vert xyz : list point) (data : Ma.t) (set_to : Z) (contribute : bool) :
  0 < radius self ->
  List.length xyz = List.length (Ma.values data) ->
  List.length (Ma.mask data) = List.length (Ma.values data) ->
  (weight (radius self) 0 = 1
   /\ weight (radius self) (radius self) = 0
   /\ (forall x, 0 <= x <= radius self ->
         weight (radius self) x = 1 - x / radius self)
   /\ (forall x, 0 <= weight (radius self) x <= 1))
  /\ exists t prop mask,
       _get_mask self (List.length vert) vert xyz data set_to contribute
       = (t, Ok (prop, mask))
       /\ (forall k v, nth_error vert k = Some v ->
             nth_error mask k
             = Some (accumulated (radius self) contribute
                       (active_sources xyz data) v))
       /\ (forall k v p d,
             nth_error vert k = Some v ->
             active_sources xyz data = [(p, d)] ->
             reaches (radius self) contribute p v = true ->
             nth_error mask k = Some (d * weight (radius self) (dist v p))
             /\ (dist v p = radius self -> nth_error mask k = Some 0)).
Proof.
  intros Hr Hxyz Hmask.
  split.
  { repeat split.
    - now apply weight_at_zero.
    - now apply weight_at_radius.
    - intros x Hx. now apply weight_linear.
    - apply weight_bounds.
    - apply weight_bounds. }
  rewrite (get_mask_spec self vert xyz data set_to contribute Hxyz Hmask).
  do 3 eexists. split; [reflexivity |]. split.
  - intros k v Hk. now rewrite (nth_error_map_some _ _ _ _ Hk).
  - intros k v p d Hk Hact Hreach.
    rewrite (nth_error_map_some _ _ _ _ Hk), Hact.
    rewrite (accumulated_single _ _ _ _ _ Hreach).
    split; [reflexivity |].
    intros ->. rewrite (weight_at_radius _ Hr). f_equal. lra.
Qed.

Lemma sqrt_of_square (x c : R) : 0 <= c -> x = c * c -> sqrt x = c.
Proof. intros Hc ->. now apply sqrt_square. Qed.

Lemma dist_at_ten : dist (11, 0, 0) (1, 0, 0) = 10.
Proof.
  unfold dist. cbn [row_sub row_square_sum].
  apply sqrt_of_square; lra.
Qed.

Lemma dist_at_zero : dist (1, 0, 0) (1, 0, 0) = 0.
Proof.
  unfold dist. cbn [row_sub row_square_sum].
  apply sqrt_of_square; lra.
Qed.

Lemma reaches_at_ten : reaches 10 false (1, 0, 0) (11, 0, 0) = true.
Proof.
  unfold reaches. rewrite dist_at_ten. cbn [negb col0 fst].
  np_decide. reflexivity.
Qed.

Lemma reaches_at_zero : reaches 10 false (1, 0, 0) (1, 0, 0) = true.
Proof.
  unfold reaches. rewrite dist_at_zero. cbn [negb col0 fst].
  np_decide. reflexivity.
Qed.

Lemma C2_linear_falloff_weight_witness :
  let vert := [(11, 0, 0)] in
  let xyz := [(1, 0, 0)] in
  let data := Ma.make [5] [false] in
  let self := scene 10 vert (Some xyz) [5] [false] in
  weight 10 10 = 0
  /\ exists t prop mask,
       _get_mask self 1 vert xyz data 0 false = (t, Ok (prop, mask))
       /\ nth_error mask 0
          = Some (5 * weight 10 (dist (11, 0, 0) (1, 0, 0)))
       /\ nth_error mask 0 = Some 0.
Proof.
  intros vert xyz data self.
  assert (Hr : 0 < radius self) by (cbn [self scene radius]; lra).
  destruct (C2_linear_falloff_weight self vert xyz data 0%Z false Hr
              eq_refl eq_refl)
    as [[_ [Hw _]] [t [prop [mask [Hrun [_ Hone]]]]]].
  split; [exact Hw |].
  exists t, prop, mask. split; [exact Hrun |].
  destruct (Hone 0%nat (11, 0, 0) (1, 0, 0) 5 eq_refl eq_refl reaches_at_ten)
    as [Hm Hz].
  split; [exact Hm | exact (Hz dist_at_ten)].
Defined.

(** ** The projection divides by one more than the number of sources *)

Lemma weight_ten_zero : weight 10 0 = 1.
Proof. apply weight_at_zero. lra. Qed.

(** C1. One vertex at (1, 0, 0) and two unmasked sources at the same place
    (distance 0, weight 1) of values 2 and 3, radius 10.  [_get_mask] with
    [set_to=1] returns [prop = [3]] and [mask = [5]], and the quotient that
    [cortical_projection] takes is 5/3: the count at the vertex is 3, not 2,
    and the value is not 5/2. *)
Theorem C1_projection_divides_by_count_plus_one :
  let vert := [(1, 0, 0)] in
  let xyz := [(1, 0, 0); (1, 0, 0)] in
  let self := scene 10 vert (Some xyz) [2; 3] [false; false] in
  snd (_get_mask self 1 vert xyz (Sources.data (sources self)) 1 false)
  = Ok ([3%Z], [5])
  /\ snd (projection_values self xyz) = Ok [5 / 3]
  /\ 5 / 3 <> 1 * (2 + 3) / 2.
Proof.
  intros vert xyz self.
  assert (Hacc : accumulated 10 false [((1, 0, 0), 2); ((1, 0, 0), 3)] (1, 0, 0) = 5).
  { unfold accumulated. cbn [fold_left fst snd].
    rewrite reaches_at_zero, dist_at_zero, weight_ten_zero. lra. }
  assert (Hcnt : contributors 10 false [((1, 0, 0), 2); ((1, 0, 0), 3)] (1, 0, 0) = 2%nat).
  { unfold contributors. cbn [filter fst]. now rewrite reaches_at_zero. }
  split; [| split].
  - change 1%nat with (List.length vert) at 1.
    rewrite get_mask_spec by reflexivity.
    cbn [snd map vert]. 
    change (active_sources xyz (Sources.data (sources self)))
      with [((1, 0, 0), 2); ((1, 0, 0), 3)].
    change (radius self) with 10.
    now rewrite Hacc, Hcnt.
  - rewrite projection_values_spec by reflexivity.
    cbn [snd map self scene atlas Atlas.vert vert].
    change (active_sources xyz (Sources.data (sources self)))
      with [((1, 0, 0), 2); ((1, 0, 0), 3)].
    change (radius self) with 10.
    now rewrite Hacc, Hcnt.
  - lra.
Qed.

(** ** Progress values *)

(** The values reported by the loop of [_get_mask]: [100*k/N] for every
    position [k] of a source that is not masked, [N] being the number of
    such sources. *)
Lemma get_mask_progress (self : SourcesTransform) (vert xyz : list point)
    (data : Ma.t) (set_to : Z) (contribute : bool) :
  List.length xyz = List.length (Ma.values data) ->
  List.length (Ma.mask data) = List.length (Ma.values data) ->
  progress_values
    (fst (_get_mask self (List.length vert) vert xyz data set_to contribute))
  = map (fun k => 100 * INR k / INR (List.length (idxunmasked_of data)))
      (idxunmasked_of data).
Proof.
  intros Hxyz Hmask. rewrite get_mask_spec by assumption.
  cbn [fst]. apply progress_values_setValue.
Qed.

(** C9. Five sources of which only the last is not masked: the loop runs
    once, for the source at position 4, with [N = 1], and reports
    [100*4/1 = 400]. *)
Theorem C9_progress_value_exceeds_100 :
  let vert := [(1, 0, 0)] in
  let xyz := [(1, 0, 0); (1, 0, 0); (1, 0, 0); (1, 0, 0); (1, 0, 0)] in
  let data := Ma.make [1; 1; 1; 1; 1] [true; true; true; true; false] in
  let self := scene 10 vert (Some xyz) [1; 1; 1; 1; 1]
                [true; true; true; true; false] in
  (exists prop mask,
     snd (_get_mask self 1 vert xyz data 0 false) = Ok (prop, mask))
  /\ progress_values (fst (_get_mask self 1 vert xyz data 0 false)) = [400]
  /\ 100 < 400.
Proof.
  intros vert xyz data self. split; [| split].
  - change 1%nat with (List.length vert).
    rewrite get_mask_spec by reflexivity.
    do 2 eexists. reflexivity.
  - change 1%nat with (List.length vert).
    rewrite get_mask_progress by reflexivity.
    change (idxunmasked_of data) with [4%nat].
    cbn [map List.length]. f_equal. simpl INR. lra.
  - lra.
Qed.

(** ** Without source coordinates *)

Section NoSources.

Variable slider2opacity : R -> R -> R -> R -> R -> R -> R -> R.
Variable array2colormap :
  list Np.float -> string -> R -> option R -> option R ->
  option string -> option string -> list rgba.

(** C7. Without a coordinate array, [cortical_projection] and
    [cortical_repartition] each warn, hide the progress bar, raise nothing
    and give back the object as it was: the colours of the mesh,
    [current_mask] and [current_non_zero] are untouched, and neither the
    mesh nor the colorbar is called. *)
Theorem C7_no_coordinates_only_warns (self : SourcesTransform) :
  Sources.xyz (sources self) = None ->
  cortical_projection slider2opacity array2colormap self
  = ([warn no_sources_message; progressbar_hide], Ok self)
  /\ cortical_repartition slider2opacity array2colormap self
     = ([warn no_sources_message; progressbar_hide], Ok self).
Proof.
  intro H. unfold cortical_projection, cortical_repartition.
  rewrite H. split; reflexivity.
Qed.

End NoSources.

Lemma C7_no_coordinates_only_warns_witness :
  let s2o := fun _ _ _ _ _ _ _ : R => 1 in
  let a2c := fun (x : list Np.float) (_ : string) (_ : R) (_ _ : option R)
                 (_ _ : option string) => map (fun _ => (0, 0, 0, 1)) x in
  let self := scene 10 [(1, 0, 0)] None [] [] in
  cortical_projection s2o a2c self
  = ([warn no_sources_message; progressbar_hide], Ok self)
  /\ cortical_repartition s2o a2c self
     = ([warn no_sources_message; progressbar_hide], Ok self).
Proof.
  intros s2o a2c self.
  apply (C7_no_coordinates_only_warns s2o a2c self). reflexivity.
Defined.

(** * Further properties of the methods *)

(** ** The hemisphere selectors, composed *)

(** Off the midline ['left'] and ['right'] are complementary; a source on
    the midline ([x = 0]) is hidden by both.  Either selector overrides the
    mask it finds: applied to its own result, or to the result of the other
    one, ['left'] gives the same mask again. *)
Theorem hemisphere_selectors_compose (self : SourcesTransform) (xyz : list point) :
  Sources.xyz (sources self) = Some xyz ->
  List.length (data_mask self) = List.length xyz ->
  exists ml mr,
    s_display self "left"
    = ([sources_update; sources_text_update], Ok (set_data_mask self ml))
    /\ s_display self "right"
       = ([sources_update; sources_text_update], Ok (set_data_mask self mr))
    /\ (forall k p, nth_error xyz k = Some p -> col0 p <> 0 ->
          exists b, nth_error ml k = Some b /\ nth_error mr k = Some (negb b))
    /\ (forall k p, nth_error xyz k = Some p -> col0 p = 0 ->
          nth_error ml k = Some true /\ nth_error mr k = Some true)
    /\ s_display (set_data_mask self ml) "left"
       = ([sources_update; sources_text_update], Ok (set_data_mask self ml))
    /\ s_display (set_data_mask self mr) "left"
       = ([sources_update; sources_text_update], Ok (set_data_mask self ml)).
Proof.
  intros Hxyz Hlen.
  exists (map (fun p => Np.le 0 (col0 p)) xyz),
         (map (fun p => Np.le (col0 p) 0) xyz).
  split; [now apply s_display_left |].
  split; [now apply s_display_right |].
  split.
  { intros k p Hk Hp. exists (Np.le 0 (col0 p)).
    rewrite !(nth_error_map_some _ _ _ _ Hk). split; [reflexivity |].
    f_equal. destruct (Rtotal_order 0 (col0 p)) as [H | [H | H]].
    - rewrite (le_true 0 (col0 p)), (le_false (col0 p) 0) by lra. reflexivity.
    - now contradiction Hp.
    - rewrite (le_false 0 (col0 p)), (le_true (col0 p) 0) by lra. reflexivity. }
  split.
  { intros k p Hk Hp. rewrite !(nth_error_map_some _ _ _ _ Hk).
    rewrite Hp, le_true by lra. split; reflexivity. }
  split.
  - rewrite (s_display_left _ xyz); [reflexivity | exact Hxyz |].
    cbn [data_mask set_data_mask sources Sources.data Ma.mask].
    apply length_map.
  - rewrite (s_display_left _ xyz); [reflexivity | exact Hxyz |].
    cbn [data_mask set_data_mask sources Sources.data Ma.mask].
    apply length_map.
Qed.

Lemma hemisphere_selectors_compose_witness :
  let xyz := [(1, 0, 0); (-1, 0, 0); (0, 2, 0)] in
  let self := scene 10 [] (Some xyz) [2; 3; 4] [false; true; false] in
  exists ml mr,
    s_display self "left"
    = ([sources_update; sources_text_update], Ok (set_data_mask self ml))
    /\ s_display self "right"
       = ([sources_update; sources_text_update], Ok (set_data_mask self mr))
    /\ (forall k p, nth_error xyz k = Some p -> col0 p <> 0 ->
          exists b, nth_error ml k = Some b /\ nth_error mr k = Some (negb b))
    /\ (forall k p, nth_error xyz k = Some p -> col0 p = 0 ->
          nth_error ml k = Some true /\ nth_error mr k = Some true)
    /\ s_display (set_data_mask self ml) "left"
       = ([sources_update; sources_text_update], Ok (set_data_mask self ml))
    /\ s_display (set_data_mask self mr) "left"
       = ([sources_update; sources_text_update], Ok (set_data_mask self ml)).
Proof.
  intros xyz self.
  apply (hemisphere_selectors_compose self xyz); reflexivity.
Defined.

(** A hemisphere selector needs the coordinate array: without it the
    subscript raises TypeError, and with a mask of another length the boolean
    index raises IndexError.  In both cases the two re-render calls are not
    made. *)
Theorem hemisphere_selector_errors (self : SourcesTransform) (select : string) :
  select = "left"%string \/ select = "right"%string ->
  match Sources.xyz (sources self) with
  | None => s_display self select = ([], Raise TypeError)
  | Some xyz =>
      List.length (data_mask self) <> List.length xyz ->
      s_display self select = ([], Raise IndexError)
  end.
Proof.
  intros Hsel.
  destruct (Sources.xyz (sources self)) as [xyz |] eqn:Hxyz.
  - intro Hlen. unfold s_display, sources_rows. rewrite Hxyz.
    assert (Hneq : Nat.eqb (List.length xyz) (List.length (data_mask self)) = false)
      by (apply Nat.eqb_neq; congruence).
    destruct Hsel as [-> | ->];
      cbn [str_in existsb String.eqb Ascii.eqb Bool.eqb orb lift bind];
      unfold bool_setitem; rewrite length_map; fold (data_mask self);
      rewrite Hneq; reflexivity.
  - unfold s_display, sources_rows. rewrite Hxyz.
    destruct Hsel as [-> | ->]; reflexivity.
Qed.

Lemma hemisphere_selector_errors_witness :
  s_display (scene 10 [] None [2] [false]) "left" = ([], Raise TypeError)
  /\ s_display (scene 10 [] (Some [(1, 0, 0)]) [2; 3] [false; false]) "right"
     = ([], Raise IndexError).
Proof.
  split.
  - exact (hemisphere_selector_errors (scene 10 [] None [2] [false]) "left"
             (or_introl eq_refl)).
  - apply (hemisphere_selector_errors
             (scene 10 [] (Some [(1, 0, 0)]) [2; 3] [false; false]) "right"
             (or_intror eq_refl)).
    cbn. discriminate.
Defined.

(** ** The containment selectors: progress, complement, edge cases *)

Lemma progress_values_app (t1 t2 : list event) :
  progress_values (t1 ++ t2) = progress_values t1 ++ progress_values t2.
Proof.
  induction t1 as [|e t1 IH]; [reflexivity |].
  destruct e; cbn [app progress_values]; rewrite IH; reflexivity.
Qed.

Lemma progress_values_containment (N : nat) :
  progress_values (containment_trace N)
  = map (fun k => 100 * INR k / INR N) (seq 0 N).
Proof.
  unfold containment_trace. cbn [progress_values].
  rewrite progress_values_app, progress_values_setValue.
  cbn [progress_values]. apply app_nil_r.
Qed.

Lemma percentage_below_100 (k N : nat) :
  (k < N)%nat -> 0 <= 100 * INR k / INR N < 100.
Proof.
  intro H.
  assert (Hk : 0 <= INR k) by apply pos_INR.
  assert (HkN : INR k < INR N) by now apply lt_INR.
  assert (HN : 0 < INR N) by lra.
  split.
  - apply Rle_mult_inv_pos; lra.
  - apply (Rmult_lt_reg_r (INR N)); [assumption |].
    unfold Rdiv. rewrite Rmult_assoc, Rinv_l by lra. lra.
Qed.

(** ['inside'] and ['outside'] make the same calls and write complementary
    masks.  They report one value per source, [100*k/N] for the source at
    position [k] of [N], so that every reported value lies in [[0, 100)]. *)
Theorem containment_selectors_progress (self : SourcesTransform) (pts : list point) :
  Sources.xyz (sources self) = Some pts ->
  List.length (data_mask self) = List.length pts ->
  Atlas.vert (atlas self) <> [] ->
  exists t mi mo,
    s_display self "inside" = (t, Ok (set_data_mask self mi))
    /\ s_display self "outside" = (t, Ok (set_data_mask self mo))
    /\ mi = map negb mo
    /\ progress_values t
       = map (fun k => 100 * INR k / INR (List.length pts))
           (seq 0 (List.length pts))
    /\ Forall (fun v => 0 <= v < 100) (progress_values t).
Proof.
  intros Hxyz Hlen Hv.
  exists (containment_trace (List.length pts)).
  exists (map (fun p => negb (classified_inside (Atlas.vert (atlas self)) p)) pts).
  exists (map (fun p => classified_inside (Atlas.vert (atlas self)) p) pts).
  split; [now apply s_display_inside |].
  split; [now apply s_display_outside |].
  split; [now rewrite map_map |].
  rewrite progress_values_containment. split; [reflexivity |].
  apply Forall_forall. intros v Hin. apply in_map_iff in Hin.
  destruct Hin as [k [<- Hk]]. apply in_seq in Hk.
  apply percentage_below_100. lia.
Qed.

Lemma containment_selectors_progress_witness :
  let pts := [(1, 0, 0); (3, 0, 0)] in
  let self := scene 10 [(2, 0, 0)] (Some pts) [2; 3] [true; true] in
  exists t mi mo,
    s_display self "inside" = (t, Ok (set_data_mask self mi))
    /\ s_display self "outside" = (t, Ok (set_data_mask self mo))
    /\ mi = map negb mo
    /\ progress_values t
       = map (fun k => 100 * INR k / INR (List.length pts))
           (seq 0 (List.length pts))
    /\ Forall (fun v => 0 <= v < 100) (progress_values t).
Proof.
  intros pts self.
  apply (containment_selectors_progress self pts);
    [reflexivity | reflexivity | discriminate].
Defined.

(** On a mesh without vertices a containment selector does nothing when
    there is no source, and otherwise raises ValueError (the minimum of an
    empty distance array) on the first source: the progress bar was shown,
    one value was reported, and neither [hide] nor the two re-render calls
    are made. *)
Theorem containment_selector_without_vertices (self : SourcesTransform)
    (pts : list point) (select : string) :
  select = "inside"%string \/ select = "outside"%string ->
  Sources.xyz (sources self) = Some pts ->
  Atlas.vert (atlas self) = [] ->
  s_display self select
  = match pts with
    | [] => ([progressbar_show; progressbar_hide; sources_update;
              sources_text_update], Ok self)
    | _ :: _ =>
        ([progressbar_show;
          progressbar_setValue (100 * INR 0 / INR (List.length pts))],
         Raise ValueError)
    end.
Proof.
  intros Hsel Hxyz Hv. unfold s_display, sources_rows. rewrite Hxyz.
  destruct pts as [|p pts];
    destruct Hsel as [-> | ->];
    cbn [str_in existsb String.eqb Ascii.eqb Bool.eqb orb lift bind emit ret
         app enumerate List.length seq combine for_each];
    try reflexivity;
    unfold s_display_body, _isInside, _closest_vertex; rewrite Hv;
    reflexivity.
Qed.

Lemma containment_selector_without_vertices_witness :
  let pts := [(1, 0, 0); (3, 0, 0)] in
  let self := scene 10 [] (Some pts) [2; 3] [true; true] in
  s_display self "inside"
  = ([progressbar_show;
      progressbar_setValue (100 * INR 0 / INR (List.length pts))],
     Raise ValueError).
Proof.
  intros pts self.
  exact (containment_selector_without_vertices self pts "inside"
           (or_introl eq_refl) eq_refl eq_refl).
Defined.

(** ** The spatial queries *)

Lemma where_from_In (c : list bool) :
  forall s i, In i (Np.where_from s c)
              <-> (s <= i)%nat /\ nth_error c (i - s) = Some true.
Proof.
  induction c as [|b c IH]; intros s i; cbn [Np.where_from].
  - split; [contradiction |]. intros [_ H]. destruct (i - s)%nat; discriminate.
  - assert (Hrec : In i (Np.where_from (S s) c)
                   <-> (S s <= i)%nat /\ nth_error c (i - S s) = Some true)
      by apply IH.
    destruct b; cbn [In]; rewrite Hrec; split.
    + intros [<- | [H1 H2]].
      * split; [lia |]. now rewrite Nat.sub_diag.
      * split; [lia |]. replace (i - s)%nat with (S (i - S s)) by lia. exact H2.
    + intros [H1 H2]. destruct (Nat.eq_dec s i) as [-> | Hne]; [now left |].
      right. split; [lia |].
      replace (i - s)%nat with (S (i - S s)) in H2 by lia. exact H2.
    + intros [H1 H2]. split; [lia |].
      replace (i - s)%nat with (S (i - S s)) by lia. exact H2.
    + intros [H1 H2]. destruct (Nat.eq_dec s i) as [-> | Hne].
      * rewrite Nat.sub_diag in H2. discriminate.
      * split; [lia |].
        replace (i - s)%nat with (S (i - S s)) in H2 by lia. exact H2.
Qed.

Lemma where_In (c : list bool) (i : nat) :
  In i (Np.where_ c) <-> nth_error c i = Some true.
Proof.
  unfold Np.where_. rewrite where_from_In, Nat.sub_0_r.
  split; [now intros [_ H] | intro H; split; [lia | exact H]].
Qed.

Lemma where_from_ascending (c : list bool) :
  forall s, StronglySorted lt (Np.where_from s c).
Proof.
  induction c as [|b c IH]; intro s; cbn [Np.where_from].
  - constructor.
  - destruct b; [| apply IH].
    constructor; [apply IH |].
    apply Forall_forall. intros i Hi. apply where_from_In in Hi. lia.
Qed.

Lemma reaches_spec (r : R) (contribute : bool) (p v : point) :
  reaches r contribute p v = true
  <-> dist v p <= r
      /\ (contribute = true \/ Np.sign (col0 v) = Np.sign (col0 p)).
Proof.
  unfold reaches, Np.le, Np.eq.
  destruct contribute; cbn [negb];
    destruct (Rle_dec (dist v p) r);
    try destruct (Req_dec_T (Np.sign (col0 v)) (Np.sign (col0 p)));
    cbn [andb]; split; try discriminate; try tauto;
    intros [H1 [H2 | H2]]; try discriminate; try contradiction; reflexivity.
Qed.

Lemma dist_nonneg (v p : point) : 0 <= dist v p.
Proof. unfold dist. apply sqrt_pos. Qed.

Lemma nth_error_map_inv {A B : Type} (f : A -> B) (l : list A) (i : nat) (y : B) :
  nth_error (map f l) i = Some y ->
  exists x, nth_error l i = Some x /\ y = f x.
Proof.
  rewrite nth_error_map. destruct (nth_error l i) as [x |]; [| discriminate].
  intros [= <-]. now exists x.
Qed.

(** [_proximal_vertices] returns, in ascending order and without repeats,
    exactly the positions of the vertices at distance at most [radius] of the
    point that are on its side (or on any side when [contribute] is true),
    and beside each position the distance of that vertex. *)
Theorem proximal_vertices_characterised (vert : list point) (p : point) (r : R)
    (contribute : bool) :
  let idx := fst (_proximal_vertices vert p r contribute) in
  let eucl := snd (_proximal_vertices vert p r contribute) in
  StronglySorted lt idx
  /\ List.length eucl = List.length idx
  /\ (forall i, In i idx
                <-> exists v, nth_error vert i = Some v
                              /\ dist v p <= r
                              /\ (contribute = true
                                  \/ Np.sign (col0 v) = Np.sign (col0 p)))
  /\ (forall j i, nth_error idx j = Some i ->
        exists v, nth_error vert i = Some v
                  /\ nth_error eucl j = Some (dist v p)
                  /\ 0 <= dist v p <= r).
Proof.
  rewrite proximal_vertices_reaches. cbn [fst snd].
  assert (Hin : forall i,
             In i (Np.where_ (map (reaches r contribute p) vert))
             <-> exists v, nth_error vert i = Some v
                           /\ dist v p <= r
                           /\ (contribute = true
                               \/ Np.sign (col0 v) = Np.sign (col0 p))).
  { intro i. rewrite where_In. split.
    - intro H. apply nth_error_map_inv in H. destruct H as [v [Hv Hr]].
      exists v. split; [exact Hv |]. now apply reaches_spec.
    - intros [v [Hv Hr]]. rewrite (nth_error_map_some _ _ _ _ Hv).
      f_equal. now apply reaches_spec. }
  split; [apply where_from_ascending |].
  split; [apply length_map |].
  split; [exact Hin |].
  intros j i Hj.
  assert (Hi : In i (Np.where_ (map (reaches r contribute p) vert)))
    by (eapply nth_error_In; exact Hj).
  apply Hin in Hi. destruct Hi as [v [Hv [Hd _]]].
  exists v. split; [exact Hv |]. split.
  - rewrite (nth_error_map_some _ _ _ _ Hj). f_equal.
    apply nth_error_nth. now rewrite (nth_error_map_some _ _ _ _ Hv).
  - split; [apply dist_nonneg | exact Hd].
Qed.

(** A larger radius, or allowing the other side, only adds vertices. *)
Theorem proximal_vertices_monotone (vert : list point) (p : point) (r r' : R)
    (contribute : bool) :
  r <= r' ->
  incl (fst (_proximal_vertices vert p r contribute))
       (fst (_proximal_vertices vert p r' contribute))
  /\ incl (fst (_proximal_vertices vert p r false))
          (fst (_proximal_vertices vert p r true)).
Proof.
  intro Hr. rewrite !proximal_vertices_reaches. cbn [fst].
  split; intros i Hi; apply where_In in Hi; apply where_In;
    apply nth_error_map_inv in Hi; destruct Hi as [v [Hv Hreach]];
    rewrite (nth_error_map_some _ _ _ _ Hv); f_equal;
    symmetry in Hreach; apply reaches_spec in Hreach;
    apply reaches_spec; destruct Hreach as [Hd Hs].
  - split; [lra | exact Hs].
  - split; [exact Hd | now left].
Qed.

Lemma proximal_vertices_monotone_witness :
  let vert := [(11, 0, 0); (1, 0, 0)] in
  incl (fst (_proximal_vertices vert (1, 0, 0) 5 false))
       (fst (_proximal_vertices vert (1, 0, 0) 10 false))
  /\ incl (fst (_proximal_vertices vert (1, 0, 0) 5 false))
          (fst (_proximal_vertices vert (1, 0, 0) 5 true)).
Proof.
  intro vert.
  apply (proximal_vertices_monotone vert (1, 0, 0) 5 10 false). lra.
Defined.

Lemma fold_min_attained (l : list R) :
  forall a, fold_left Rmin l a = a \/ In (fold_left Rmin l a) l.
Proof.
  induction l as [|z l IH]; intro a; cbn [fold_left In]; [now left |].
  destruct (IH (Rmin a z)) as [H | H]; [| now right; right].
  rewrite H. unfold Rmin. destruct (Rle_dec a z); [now left | right; now left].
Qed.

Lemma np_min_attained (l : list R) (lo : R) :
  np_min l = Ok lo -> In lo l.
Proof.
  destruct l as [|x l]; [discriminate |]. intros [= <-]. unfold Np.min1.
  destruct (fold_min_attained l x) as [-> | H]; [now left | now right].
Qed.

Lemma eq_spec (x y : R) : Np.eq x y = true <-> x = y.
Proof.
  unfold Np.eq. destruct (Req_dec_T x y); split; intro H;
    try reflexivity; try assumption; try discriminate; contradiction.
Qed.

(** The positions the closest-vertex query keeps, for a minimum [lo]. *)
Lemma closest_condition (vert : list point) (p : point) (contribute : bool) (lo : R) :
  (if negb contribute then
     band (map (fun e => Np.eq e lo) (eucl_of vert p)) (same_side vert p)
   else map (fun e => Np.eq e lo) (eucl_of vert p))
  = map (fun v => Np.eq (dist v p) lo
                  && (contribute
                      || Np.eq (Np.sign (col0 v)) (Np.sign (col0 p)))) vert.
Proof.
  unfold eucl_of, same_side, dist. rewrite map_map.
  destruct contribute; cbn [negb orb].
  - apply map_ext. intro v. now rewrite andb_true_r.
  - now rewrite band_map.
Qed.

(** [_closest_vertex] raises ValueError exactly on an empty vertex array.
    Otherwise it returns, in ascending order, exactly the positions of the
    vertices that are at the least distance of the point among all vertices
    and, unless [contribute] is true, on the side of the point.  With
    [contribute] true the result is never empty. *)
Theorem closest_vertex_characterised (vert : list point) (p : point)
    (contribute : bool) :
  match _closest_vertex vert p contribute with
  | Raise e => e = ValueError /\ vert = []
  | Ok idx =>
      vert <> []
      /\ StronglySorted lt idx
      /\ (forall i, In i idx
                    <-> exists v, nth_error vert i = Some v
                                  /\ (forall w, In w vert -> dist v p <= dist w p)
                                  /\ (contribute = true
                                      \/ Np.sign (col0 v) = Np.sign (col0 p)))
      /\ (contribute = true -> idx <> [])
  end.
Proof.
  unfold _closest_vertex.
  destruct (np_min (eucl_of vert p)) as [lo | e] eqn:Hmin; cbn [res_bind].
  2:{ destruct vert; [| discriminate]. injection Hmin as <-. now split. }
  assert (Hne : vert <> []) by (intros ->; discriminate).
  assert (Hlow : forall w, In w vert -> lo <= dist w p).
  { intros w Hw. apply (np_min_le _ _ Hmin). unfold eucl_of.
    now apply (in_map (fun v => sqrt (row_square_sum (row_sub v p)))). }
  assert (Hatt : exists v, In v vert /\ dist v p = lo).
  { apply np_min_attained in Hmin. unfold eucl_of in Hmin.
    apply in_map_iff in Hmin. destruct Hmin as [v [Hv Hin]]. now exists v. }
  assert (Hidx : (if negb contribute
                  then Ok (Np.where_ (band (map (fun e => Np.eq e lo) (eucl_of vert p))
                                        (same_side vert p)))
                  else Ok (Np.where_ (map (fun e => Np.eq e lo) (eucl_of vert p))))
                 = Ok (Np.where_
                         (map (fun v => Np.eq (dist v p) lo
                                        && (contribute
                                            || Np.eq (Np.sign (col0 v))
                                                 (Np.sign (col0 p)))) vert))).
  { rewrite <- closest_condition. now destruct contribute. }
  rewrite Hidx. clear Hidx.
  assert (Hin : forall i,
             In i (Np.where_
                     (map (fun v => Np.eq (dist v p) lo
                                    && (contribute
                                        || Np.eq (Np.sign (col0 v))
                                             (Np.sign (col0 p)))) vert))
             <-> exists v, nth_error vert i = Some v
                           /\ (forall w, In w vert -> dist v p <= dist w p)
                           /\ (contribute = true
                               \/ Np.sign (col0 v) = Np.sign (col0 p))).
  { intro i. rewrite where_In. split.
    - intro H. apply nth_error_map_inv in H. destruct H as [v [Hv Hc]].
      symmetry in Hc. apply andb_true_iff in Hc. destruct Hc as [Hd Hs].
      apply eq_spec in Hd. exists v. split; [exact Hv |]. split.
      + intros w Hw. rewrite Hd. now apply Hlow.
      + apply orb_true_iff in Hs. destruct Hs as [Hs | Hs];
          [now left | right; now apply eq_spec].
    - intros [v [Hv [Hleast Hs]]]. rewrite (nth_error_map_some _ _ _ _ Hv).
      f_equal. apply andb_true_iff. split.
      + apply eq_spec. destruct Hatt as [w [Hw Hwd]].
        pose proof (Hleast w Hw). pose proof (Hlow v (nth_error_In _ _ Hv)). lra.
      + apply orb_true_iff. destruct Hs as [Hs | Hs];
          [now left | right; now apply eq_spec]. }
  split; [exact Hne |].
  split; [apply where_from_ascending |].
  split; [exact Hin |].
  intros Hc Hnil. destruct Hatt as [v [Hv Hvd]].
  apply In_nth_error in Hv. destruct Hv as [i Hi].
  assert (Hi' : In i []).
  { rewrite <- Hnil. apply Hin. exists v. split; [exact Hi |]. split.
    - intros w Hw. rewrite Hvd. now apply Hlow.
    - now left. }
  contradiction.
Qed.

Lemma closest_vertex_raises (vert : list point) (p : point)
    (contribute : bool) (e : exn) :
  _closest_vertex vert p contribute = Raise e -> e = ValueError /\ vert = [].
Proof.
  unfold _closest_vertex. destruct vert as [|v vert].
  - cbn [eucl_of map np_min res_bind]. intros [= <-]. now split.
  - cbn [eucl_of map np_min res_bind]. destruct (negb contribute); discriminate.
Qed.

Lemma row_square_sum_nonneg (p : point) : 0 <= row_square_sum p.
Proof. destruct p as [[x y] z]. cbn [row_square_sum]. nra. Qed.

Lemma square_sum_nonneg (a : list point) : 0 <= square_sum a.
Proof.
  induction a as [|p a IH]; cbn [square_sum fold_right]; [lra |].
  fold (square_sum a). pose proof (row_square_sum_nonneg p). lra.
Qed.

Lemma lt_sqrt (a b : R) :
  0 <= a -> 0 <= b -> (Np.lt (sqrt a) (sqrt b) = true <-> a < b).
Proof.
  intros Ha Hb. unfold Np.lt.
  destruct (Rlt_dec (sqrt a) (sqrt b)) as [H | H]; split; intro H';
    try reflexivity; try discriminate.
  - now apply sqrt_lt_0.
  - exfalso. apply H. now apply sqrt_lt_1.
Qed.

(** [_isInside] raises ValueError exactly on an empty vertex array.
    Otherwise it answers true exactly when the sum of the squares of the
    coordinates of the point is less than the sum of the squares of all
    the coordinates of the closest vertices kept by [_closest_vertex] (one
    term per kept vertex when several tie).  When none is kept (the closest
    vertices are all on the other side) it answers false. *)
Theorem isInside_characterised (vert : list point) (p : point)
    (contribute : bool) :
  match _isInside vert p contribute with
  | Raise e => e = ValueError /\ vert = []
  | Ok b =>
      exists idx,
        _closest_vertex vert p contribute = Ok idx
        /\ (b = true <-> row_square_sum p < square_sum (rows vert idx))
        /\ (idx = [] -> b = false)
  end.
Proof.
  pose proof (closest_vertex_raises vert p contribute) as Hc.
  unfold _isInside.
  destruct (_closest_vertex vert p contribute) as [idx | e]; cbn [res_bind].
  - exists idx. split; [reflexivity |]. split.
    + apply lt_sqrt; [apply row_square_sum_nonneg | apply square_sum_nonneg].
    + intros ->. cbn [rows map square_sum fold_right].
      apply lt_false. rewrite sqrt_0. apply sqrt_pos.
  - now apply Hc.
Qed.

(** ** _get_mask: counts, masked sources, missing rows *)

Lemma select_length_le {A : Type} (a : list A) (m : list bool) :
  (List.length (Np.select a m) <= List.length a)%nat.
Proof.
  revert m. induction a as [|x a IH]; intros [|b m]; cbn [Np.select List.length];
    try lia. specialize (IH m). destruct b; cbn [List.length]; lia.
Qed.

Lemma where_from_length (c : list bool) :
  forall s, List.length (Np.where_from s c) = List.length (filter (fun b => b) c).
Proof.
  induction c as [|b c IH]; intro s; cbn [Np.where_from filter]; [reflexivity |].
  destruct b; cbn [List.length]; now rewrite IH.
Qed.

Lemma select_length {A : Type} (a : list A) (m : list bool) :
  List.length a = List.length m ->
  List.length (Np.select a m) = List.length (filter (fun b => b) m).
Proof.
  revert m. induction a as [|x a IH]; intros [|b m] H; cbn in H;
    try discriminate; [reflexivity |].
  injection H as H. cbn [Np.select filter].
  destruct b; cbn [List.length]; now rewrite IH.
Qed.

Lemma active_sources_length (xyz : list point) (data : Ma.t) :
  List.length xyz = List.length (Ma.values data) ->
  List.length (Ma.mask data) = List.length (Ma.values data) ->
  List.length (active_sources xyz data) = List.length (idxunmasked_of data).
Proof.
  intros Hxyz Hmask. unfold active_sources, idxunmasked_of, Np.where_.
  rewrite where_from_length, select_length.
  - reflexivity.
  - rewrite length_combine, length_map, Hxyz, Nat.min_id. now symmetry.
Qed.

Lemma accumulated_unreached (r : R) (contribute : bool)
    (srcs : list (point * R)) (v : point) :
  contributors r contribute srcs v = 0%nat ->
  accumulated r contribute srcs v = 0.
Proof.
  unfold contributors, accumulated. generalize 0.
  induction srcs as [|[p d] srcs IH]; intros a H; cbn [fold_left]; [reflexivity |].
  cbn [filter fst] in H. cbn [fst snd].
  destruct (reaches r contribute p v); [discriminate |]. now apply IH.
Qed.

(** On arrays of matching lengths [_get_mask] returns two arrays with one
    entry per vertex.  [prop] at a vertex is [set_to] plus the number of
    unmasked sources that reach the vertex, which is at most the number of
    unmasked sources; where no source reaches, [mask] is 0.  One progress
    value is reported per unmasked source. *)
Theorem get_mask_counts (self : SourcesTransform) (vert xyz : list point)
    (data : Ma.t) (set_to : Z) (contribute : bool) :
  List.length xyz = List.length (Ma.values data) ->
  List.length (Ma.mask data) = List.length (Ma.values data) ->
  exists t prop mask,
    _get_mask self (List.length vert) vert xyz data set_to contribute
    = (t, Ok (prop, mask))
    /\ List.length prop = List.length vert
    /\ List.length mask = List.length vert
    /\ List.length (progress_values t) = List.length (idxunmasked_of data)
    /\ forall k v, nth_error vert k = Some v ->
         let n := contributors (radius self) contribute
                    (active_sources xyz data) v in
         nth_error prop k = Some (set_to + Z.of_nat n)%Z
         /\ (n <= List.length (idxunmasked_of data))%nat
         /\ (n = 0%nat -> nth_error mask k = Some 0).
Proof.
  intros Hxyz Hmask.
  rewrite (get_mask_spec self vert xyz data set_to contribute Hxyz Hmask).
  do 3 eexists. split; [reflexivity |].
  split; [apply length_map |]. split; [apply length_map |].
  split; [now rewrite progress_values_setValue, length_map |].
  intros k v Hk n. rewrite !(nth_error_map_some _ _ _ _ Hk).
  split; [reflexivity |]. split.
  - rewrite <- (active_sources_length xyz data Hxyz Hmask).
    unfold n, contributors. apply filter_length_le.
  - intro Hn. f_equal. now apply accumulated_unreached.
Qed.

Lemma get_mask_counts_witness :
  let vert := [(1, 0, 0); (-1, 0, 0)] in
  let xyz := [(1, 0, 0); (1, 0, 0)] in
  let data := Ma.make [2; 3] [false; true] in
  let self := scene 10 vert (Some xyz) [2; 3] [false; true] in
  exists t prop mask,
    _get_mask self (List.length vert) vert xyz data 0 false
    = (t, Ok (prop, mask))
    /\ List.length prop = List.length vert
    /\ List.length mask = List.length vert
    /\ List.length (progress_values t) = List.length (idxunmasked_of data)
    /\ forall k v, nth_error vert k = Some v ->
         let n := contributors (radius self) false
                    (active_sources xyz data) v in
         nth_error prop k = Some (0 + Z.of_nat n)%Z
         /\ (n <= List.length (idxunmasked_of data))%nat
         /\ (n = 0%nat -> nth_error mask k = Some 0).
Proof.
  intros vert xyz data self.
  apply (get_mask_counts self vert xyz data 0%Z false); reflexivity.
Defined.

Lemma where_all_false (c : list bool) :
  (forall b, In b c -> b = false) -> forall s, Np.where_from s c = [].
Proof.
  induction c as [|b c IH]; intros H s; cbn [Np.where_from]; [reflexivity |].
  rewrite (H b (or_introl eq_refl)). apply IH. intros b' Hb'. apply H. now right.
Qed.

Lemma idxunmasked_all_masked (data : Ma.t) :
  (forall b, In b (Ma.mask data) -> b = true) -> idxunmasked_of data = [].
Proof.
  intro H. unfold idxunmasked_of, Np.where_. apply where_all_false.
  intros b Hb. apply in_map_iff in Hb. destruct Hb as [b' [<- Hb']].
  now rewrite (H b' Hb').
Qed.

(** When every source is masked the loop of [_get_mask] does not run,
    whatever the arrays: nothing is reported, [prop] is [set_to] everywhere and
    [mask] is 0 everywhere. *)
Theorem get_mask_all_masked (self : SourcesTransform) (nv : nat)
    (vert xyz : list point) (data : Ma.t) (set_to : Z) (contribute : bool) :
  (forall b, In b (Ma.mask data) -> b = true) ->
  _get_mask self nv vert xyz data set_to contribute
  = ([], Ok (repeat set_to nv, repeat 0 nv)).
Proof.
  intro H. unfold _get_mask. fold (idxunmasked_of data).
  rewrite initial_prop, (idxunmasked_all_masked data H). reflexivity.
Qed.

Lemma get_mask_all_masked_witness :
  let data := Ma.make [2; 3] [true; true] in
  let self := scene 10 [(1, 0, 0)] (Some [(1, 0, 0)]) [2; 3] [true; true] in
  _get_mask self 3 [(1, 0, 0)] [(1, 0, 0)] data 1 false
  = ([], Ok (repeat 1%Z 3, repeat 0 3)).
Proof.
  intros data self.
  apply (get_mask_all_masked self 3 [(1, 0, 0)] [(1, 0, 0)] data 1%Z false).
  intros b [<- | [<- | []]]; reflexivity.
Defined.

(** When the first unmasked source has no row in the coordinate array the
    loop raises IndexError on its first turn, after one progress report. *)
Theorem get_mask_missing_row (self : SourcesTransform) (nv : nat)
    (vert xyz : list point) (data : Ma.t) (set_to : Z) (contribute : bool)
    (k : nat) (rest : list nat) :
  idxunmasked_of data = k :: rest ->
  nth_error xyz k = None ->
  _get_mask self nv vert xyz data set_to contribute
  = ([progressbar_setValue (100 * INR k / INR (S (List.length rest)))],
     Raise IndexError).
Proof.
  intros Hidx Hk. unfold _get_mask. fold (idxunmasked_of data). rewrite Hidx.
  cbn [enumerate List.length seq combine for_each].
  unfold _get_mask_body at 1, getitem. rewrite Hk. reflexivity.
Qed.

Lemma get_mask_missing_row_witness :
  let data := Ma.make [2; 3] [true; false] in
  let self := scene 10 [(1, 0, 0)] (Some [(1, 0, 0)]) [2; 3] [true; false] in
  _get_mask self 1 [(1, 0, 0)] [(1, 0, 0)] data 0 false
  = ([progressbar_setValue (100 * INR 1 / INR 1)], Raise IndexError).
Proof.
  intros data self.
  exact (get_mask_missing_row self 1 [(1, 0, 0)] [(1, 0, 0)] data 0%Z false
           1 [] eq_refl eq_refl).
Defined.

(** ** _rescale_cmap: range, end points, order *)

Lemma fold_max_attained (l : list R) :
  forall a, fold_left Rmax l a = a \/ In (fold_left Rmax l a) l.
Proof.
  induction l as [|z l IH]; intro a; cbn [fold_left In]; [now left |].
  destruct (IH (Rmax a z)) as [H | H]; [| now right; right].
  rewrite H. unfold Rmax. destruct (Rle_dec a z); [right; now left | now left].
Qed.

Lemma np_max_attained (l : list R) (hi : R) :
  np_max l = Ok hi -> In hi l.
Proof.
  destruct l as [|x l]; [discriminate |]. intros [= <-]. unfold Np.max1.
  destruct (fold_max_attained l x) as [-> | H]; [now left | now right].
Qed.

(** When two entries that differ from [val] differ from each other and
    [to_min <= to_max], [_rescale_cmap] returns; every entry [x] that differs
    from [val] becomes the finite number
    [(x - lo) / hi * (to_max - to_min) + to_min] with [hi > 0], which lies in
    [[to_min, to_max]]; the least such entry becomes [to_min] and the
    greatest becomes [to_max]. *)
Theorem rescale_range_and_end_points (cort : list R) (to_min to_max val : R) :
  to_min <= to_max ->
  (exists x y, In x cort /\ In y cort /\ x <> val /\ y <> val /\ x <> y) ->
  exists cort' lo hi,
    _rescale_cmap cort to_min to_max val
    = Ok (cort', map (fun c => Np.ne c val) cort)
    /\ 0 < hi
    /\ forall i x, nth_error cort i = Some x -> x <> val ->
         let y := (x - lo) / hi * (to_max - to_min) + to_min in
         nth_error cort' i = Some (Np.Fin y)
         /\ to_min <= y <= to_max
         /\ ((forall z, In z cort -> z <> val -> x <= z) -> y = to_min)
         /\ ((forall z, In z cort -> z <> val -> z <= x) -> y = to_max).
Proof.
  intros Hrange [a [b [Ha [Hb [Hav [Hbv Hab]]]]]].
  rewrite rescale_closed_form.
  set (sel := filter (fun c => Np.ne c val) cort).
  assert (Hsel : forall z, In z sel <-> In z cort /\ z <> val).
  { intro z. unfold sel. rewrite filter_In, ne_spec. tauto. }
  destruct sel as [|x0 sub] eqn:Esel.
  { exfalso. apply (proj2 (Hsel a)). now split. }
  cbv zeta.
  set (lo := Np.min1 x0 sub).
  set (hi := Np.max1 (x0 - lo) (map (fun y => y - lo) sub)).
  assert (Hlo : np_min (x0 :: sub) = Ok lo) by reflexivity.
  assert (Hhi : np_max (map (fun y => y - lo) (x0 :: sub)) = Ok hi) by reflexivity.
  assert (Hlow : forall z, In z (x0 :: sub) -> lo <= z) by apply (np_min_le _ _ Hlo).
  assert (Hup : forall z, In z (x0 :: sub) -> z - lo <= hi).
  { intros z Hz. apply (np_max_ge _ _ Hhi).
    now apply (in_map (fun y => y - lo)). }
  assert (Hloin : In lo (x0 :: sub)) by apply (np_min_attained _ _ Hlo).
  assert (Hhiin : exists m, In m (x0 :: sub) /\ hi = m - lo).
  { apply np_max_attained in Hhi. apply in_map_iff in Hhi.
    destruct Hhi as [m [Hm Hin]]. now exists m. }
  assert (Hpos : 0 < hi).
  { assert (Ha' : In a (x0 :: sub)) by (apply Hsel; now split).
    assert (Hb' : In b (x0 :: sub)) by (apply Hsel; now split).
    pose proof (Hlow a Ha'). pose proof (Hlow b Hb').
    pose proof (Hup a Ha'). pose proof (Hup b Hb').
    destruct (Rtotal_order a b) as [H' | [H' | H']]; [lra | contradiction | lra]. }
  eexists. exists lo, hi. split; [reflexivity |]. split; [exact Hpos |].
  intros i x Hx Hxv.
  set (y := (x - lo) / hi * (to_max - to_min) + to_min).
  assert (Hxin : In x (x0 :: sub))
    by (apply Hsel; split; [eapply nth_error_In; exact Hx | exact Hxv]).
  assert (Hq : 0 <= (x - lo) / hi <= 1).
  { pose proof (Hlow x Hxin). pose proof (Hup x Hxin). split.
    - apply Rle_mult_inv_pos; lra.
    - apply (Rmult_le_reg_r hi); [assumption |].
      unfold Rdiv. rewrite Rmult_assoc, Rinv_l by lra. lra. }
  split.
  { rewrite (nth_error_map_some _ _ _ _ Hx), (ne_true x val Hxv).
    unfold rescaled. rewrite divide_finite by lra. reflexivity. }
  split; [unfold y; nra |]. split.
  - intro Hleast.
    assert (Hxlo : x = lo).
    { pose proof (Hlow x Hxin).
      pose proof (Hleast lo (proj1 (proj1 (Hsel lo) Hloin))
                    (proj2 (proj1 (Hsel lo) Hloin))). lra. }
    unfold y. rewrite Hxlo. replace (lo - lo) with 0 by lra.
    unfold Rdiv. rewrite Rmult_0_l. lra.
  - intro Hmost. destruct Hhiin as [m [Hm Hhim]].
    assert (Hxm : x - lo = hi).
    { pose proof (Hup x Hxin).
      pose proof (Hmost m (proj1 (proj1 (Hsel m) Hm))
                    (proj2 (proj1 (Hsel m) Hm))). lra. }
    unfold y. rewrite Hxm. unfold Rdiv. rewrite Rinv_r by lra. lra.
Qed.

Lemma rescale_range_and_end_points_witness :
  exists cort' lo hi,
    _rescale_cmap [0; 1; 3] 2 5 0
    = Ok (cort', map (fun c => Np.ne c 0) [0; 1; 3])
    /\ 0 < hi
    /\ forall i x, nth_error [0; 1; 3] i = Some x -> x <> 0 ->
         let y := (x - lo) / hi * (5 - 2) + 2 in
         nth_error cort' i = Some (Np.Fin y)
         /\ 2 <= y <= 5
         /\ ((forall z, In z [0; 1; 3] -> z <> 0 -> x <= z) -> y = 2)
         /\ ((forall z, In z [0; 1; 3] -> z <> 0 -> z <= x) -> y = 5).
Proof.
  apply (rescale_range_and_end_points [0; 1; 3] 2 5 0); [lra |].
  exists 1, 3. cbn [In]. repeat split; try tauto; lra.
Defined.

(** ** _array2cmap *)

Lemma rgb_where_length (c : list rgba) (idx : list bool) (d : list rgba) :
  List.length (rgb_where c idx d) = List.length c.
Proof.
  revert idx d. induction c as [|x c IH]; intros [|b idx] [|y d];
    cbn [rgb_where List.length]; try reflexivity. now rewrite IH.
Qed.

Lemma rgb_where_nth (c : list rgba) (idx : list bool) (d : list rgba) :
  forall i x b y,
  nth_error c i = Some x -> nth_error idx i = Some b -> nth_error d i = Some y ->
  nth_error (rgb_where c idx d) i = Some (if b then set_rgb x y else x).
Proof.
  revert idx d. induction c as [|x0 c IH]; intros [|b0 idx] [|y0 d] [|i] x b y;
    cbn [nth_error rgb_where]; try discriminate.
  - now intros [= <-] [= <-] [= <-].
  - apply IH.
Qed.

Lemma set_rgb_alpha (c d : rgba) : snd (set_rgb c d) = snd c.
Proof. destruct c as [[[r g] b] a], d as [[[r' g'] b'] a']. reflexivity. Qed.

Lemma set_rgb_rgb (c d : rgba) : fst (set_rgb c d) = fst d.
Proof. destruct c as [[[r g] b] a], d as [[[r' g'] b'] a']. reflexivity. Qed.

Section Colours.

Variable slider2opacity : R -> R -> R -> R -> R -> R -> R -> R.
Variable array2colormap :
  list Np.float -> string -> R -> option R -> option R ->
  option string -> option string -> list rgba.

(** The colours [_array2cmap] gets from the colormap helper. *)
Let mapped (self : SourcesTransform) (x : list Np.float) (vmin vmax : option R)
    (under over : option string) : list rgba :=
  array2colormap x (cmap self)
    (slider2opacity (OpacitySlider_value self) 0 100 (_slmin self)
       (_slmax self) (view_minOpacity self) (view_maxOpacity self))
    vmin vmax under over.

Lemma array2cmap_some (self : SourcesTransform) (x : list Np.float)
    (nz : list bool) (vmin vmax : option R) (under over : option string) :
  List.length nz = List.length (mapped self x vmin vmax under over) ->
  List.length nz = List.length (Atlas.d_vcolor (atlas self)) ->
  _array2cmap slider2opacity array2colormap self x (Some nz) vmin vmax under over
  = ([mesh_data_changed],
     Ok (set_vertex_colors self
           (rgb_where (mapped self x vmin vmax under over) (map negb nz)
              (Atlas.d_vcolor (atlas self))))).
Proof.
  intros H1 H2. unfold _array2cmap, rgb_setitem. fold (mapped self x vmin vmax under over).
  rewrite length_map, <- H1, <- H2, !Nat.eqb_refl. reflexivity.
Qed.

(** [_array2cmap] sends one colour array to the mesh and changes nothing
    else of the object.  Without a mask the array is the one of the colormap
    helper.  With a mask of the right length, a vertex that the mask marks
    keeps the colour of the helper, and any other vertex takes the red, green
    and blue of [d_vcolor] and keeps the opacity the helper gave it.  With a
    mask of another length than the colours, or than [d_vcolor], IndexError is
    raised and the mesh is not called. *)
Theorem array2cmap_colours (self : SourcesTransform) (x : list Np.float)
    (vmin vmax : option R) (under over : option string) :
  let cm := mapped self x vmin vmax under over in
  let dv := Atlas.d_vcolor (atlas self) in
  _array2cmap slider2opacity array2colormap self x None vmin vmax under over
  = ([mesh_data_changed], Ok (set_vertex_colors self cm))
  /\ (forall nz,
        List.length nz = List.length cm -> List.length nz = List.length dv ->
        exists colours,
          _array2cmap slider2opacity array2colormap self x (Some nz)
            vmin vmax under over
          = ([mesh_data_changed], Ok (set_vertex_colors self colours))
          /\ List.length colours = List.length nz
          /\ forall i c d b,
               nth_error cm i = Some c -> nth_error dv i = Some d ->
               nth_error nz i = Some b ->
               exists c', nth_error colours i = Some c'
                          /\ snd c' = snd c
                          /\ (b = true -> c' = c)
                          /\ (b = false -> fst c' = fst d))
  /\ (forall nz,
        List.length nz <> List.length cm \/ List.length nz <> List.length dv ->
        _array2cmap slider2opacity array2colormap self x (Some nz)
          vmin vmax under over
        = ([], Raise IndexError)).
Proof.
  intros cm dv. split; [reflexivity |]. split.
  - intros nz H1 H2. eexists. split; [now apply array2cmap_some |].
    split; [now rewrite rgb_where_length |].
    intros i c d b Hc Hd Hb.
    assert (Hb' : nth_error (map negb nz) i = Some (negb b))
      by now apply nth_error_map_some.
    exists (if negb b then set_rgb c d else c).
    split; [exact (rgb_where_nth _ _ _ i c (negb b) d Hc Hb' Hd) |].
    destruct b; cbn [negb].
    + repeat split; intro; discriminate.
    + split; [apply set_rgb_alpha |].
      split; [intro; discriminate | intros _; apply set_rgb_rgb].
  - intros nz H. unfold _array2cmap, rgb_setitem.
    fold (mapped self x vmin vmax under over). fold cm. fold dv.
    rewrite length_map.
    assert (Hb : Nat.eqb (List.length nz) (List.length cm)
                 && Nat.eqb (List.length nz) (List.length dv) = false).
    { apply andb_false_iff. destruct H as [H | H]; [left | right];
        now apply Nat.eqb_neq. }
    rewrite Hb. reflexivity.
Qed.

End Colours.

(** ** cortical_repartition and cortical_projection, end to end *)

Lemma np_max_nonempty (l : list R) :
  l <> [] -> exists hi, np_max l = Ok hi.
Proof. destruct l as [|x l]; [contradiction | intros _; now eexists]. Qed.

Section EndToEnd.

Variable slider2opacity : R -> R -> R -> R -> R -> R -> R -> R.
Variable array2colormap :
  list Np.float -> string -> R -> option R -> option R ->
  option string -> option string -> list rgba.

(** The colormap helper gives one colour per value. *)
Hypothesis array2colormap_length :
  forall x c a vmin vmax under over,
  List.length (array2colormap x c a vmin vmax under over) = List.length x.

Lemma repartition_run (self : SourcesTransform) (pts : list point) :
  Sources.xyz (sources self) = Some pts ->
  List.length pts = List.length (Ma.values (Sources.data (sources self))) ->
  List.length (data_mask self)
  = List.length (Ma.values (Sources.data (sources self))) ->
  Atlas._nv (atlas self) = List.length (Atlas.vert (atlas self)) ->
  Atlas.vert (atlas self) <> [] ->
  List.length (Atlas.d_vcolor (atlas self))
  = List.length (Atlas.vert (atlas self)) ->
  let data := Sources.data (sources self) in
  let vert := Atlas.vert (atlas self) in
  let prop :=
    map (fun v => Z.of_nat (contributors (radius self) false
                              (active_sources pts data) v)) vert in
  let values := map (fun p => Np.Fin (IZR p)) prop in
  let non_zero := map (fun p => negb (Z.eqb p 0)) prop in
  exists vmax,
    np_max (map IZR prop) = Ok vmax
    /\ cortical_repartition slider2opacity array2colormap self
       = (progressbar_show
          :: map (fun k => progressbar_setValue
                             (100 * INR k / INR (List.length (idxunmasked_of data))))
               (idxunmasked_of data)
          ++ [mesh_data_changed;
              cbupdate (Np.select values non_zero) (cmap self) (cmap_vmin self)
                (cmap_vmax self) (cmap_under self) (cmap_over self)
                (cblabel self) (cbfontsize self);
              progressbar_hide],
          Ok (set_current_non_zero
                (set_current_mask
                   (set_vertex_colors self
                      (rgb_where
                         (array2colormap values (cmap self)
                            (slider2opacity (OpacitySlider_value self) 0 100
                               (_slmin self) (_slmax self)
                               (view_minOpacity self) (view_maxOpacity self))
                            (Some 0) (Some vmax) None None)
                         (map negb non_zero)
                         (Atlas.d_vcolor (atlas self))))
                   (Some values))
                (Some non_zero))).
Proof.
  intros Hxyz Hpts Hmask Hnv Hvert Hdv data vert prop values non_zero.
  destruct (np_max_nonempty (map IZR prop)) as [vmax Hmax].
  { unfold prop. fold vert in Hvert. destruct vert; [contradiction | discriminate]. }
  exists vmax. split; [exact Hmax |].
  unfold cortical_repartition. rewrite Hxyz, Hnv.
  rewrite (get_mask_spec self _ pts _ 0%Z false Hpts Hmask).
  fold data. fold vert.
  change (map (fun v => (0 + Z.of_nat (contributors (radius self) false
                                        (active_sources pts data) v))%Z) vert)
    with prop.
  cbn [bind emit app]. rewrite Hmax. cbn [lift bind app].
  fold values. fold non_zero.
  rewrite (array2cmap_some slider2opacity array2colormap self values non_zero).
  - cbn [bind emit ret app]. rewrite <- app_assoc. reflexivity.
  - rewrite array2colormap_length. unfold non_zero, values.
    now rewrite !length_map.
  - rewrite Hdv. unfold non_zero, prop. now rewrite !length_map.
Qed.

Lemma of_nat_eqb_0 (n : nat) : Z.eqb (Z.of_nat n) 0 = Nat.eqb n 0.
Proof. destruct n; reflexivity. Qed.

(** On a mesh with vertices and arrays of matching lengths
    [cortical_repartition] returns.  It saves, per vertex, the number of
    unmasked sources that reach it and whether this number is not 0, sends to
    the mesh colours in which a vertex that no source reaches has the red,
    green and blue of [d_vcolor], maps the counts with [vmin = 0] and [vmax]
    the greatest count, and shows then hides the progress bar around one
    report per unmasked source. *)
Theorem cortical_repartition_counts (self : SourcesTransform) (pts : list point) :
  Sources.xyz (sources self) = Some pts ->
  List.length pts = List.length (Ma.values (Sources.data (sources self))) ->
  List.length (data_mask self)
  = List.length (Ma.values (Sources.data (sources self))) ->
  Atlas._nv (atlas self) = List.length (Atlas.vert (atlas self)) ->
  Atlas.vert (atlas self) <> [] ->
  List.length (Atlas.d_vcolor (atlas self))
  = List.length (Atlas.vert (atlas self)) ->
  let data := Sources.data (sources self) in
  let vert := Atlas.vert (atlas self) in
  let n := contributors (radius self) false (active_sources pts data) in
  let values := map (fun v => Np.Fin (IZR (Z.of_nat (n v)))) vert in
  let non_zero := map (fun v => negb (Nat.eqb (n v) 0)) vert in
  exists colours vmax,
    cortical_repartition slider2opacity array2colormap self
    = (progressbar_show
       :: map (fun k => progressbar_setValue
                          (100 * INR k / INR (List.length (idxunmasked_of data))))
            (idxunmasked_of data)
       ++ [mesh_data_changed;
           cbupdate (Np.select values non_zero) (cmap self) (cmap_vmin self)
             (cmap_vmax self) (cmap_under self) (cmap_over self)
             (cblabel self) (cbfontsize self);
           progressbar_hide],
       Ok (set_current_non_zero
             (set_current_mask (set_vertex_colors self colours) (Some values))
             (Some non_zero)))
    /\ colours
       = rgb_where
           (array2colormap values (cmap self)
              (slider2opacity (OpacitySlider_value self) 0 100
                 (_slmin self) (_slmax self)
                 (view_minOpacity self) (view_maxOpacity self))
              (Some 0) (Some vmax) None None)
           (map negb non_zero) (Atlas.d_vcolor (atlas self))
    /\ (forall v, In v vert -> IZR (Z.of_nat (n v)) <= vmax)
    /\ (exists v, In v vert /\ vmax = IZR (Z.of_nat (n v)))
    /\ List.length colours = List.length vert
    /\ forall i v d,
         nth_error vert i = Some v ->
         nth_error (Atlas.d_vcolor (atlas self)) i = Some d ->
         n v = 0%nat ->
         exists c, nth_error colours i = Some c /\ fst c = fst d.
Proof.
  intros Hxyz Hpts Hmask Hnv Hvert Hdv data vert n values non_zero.
  destruct (repartition_run self pts Hxyz Hpts Hmask Hnv Hvert Hdv)
    as [vmax [Hmax Hrun]].
  fold data vert n in Hmax, Hrun.
  assert (Hvalues : map (fun p => Np.Fin (IZR p)) (map (fun v => Z.of_nat (n v)) vert)
                    = values) by (unfold values; now rewrite map_map).
  assert (Hnz : map (fun p => negb (Z.eqb p 0)) (map (fun v => Z.of_nat (n v)) vert)
                = non_zero).
  { unfold non_zero. rewrite map_map. apply map_ext. intro v.
    now rewrite of_nat_eqb_0. }
  rewrite Hvalues, Hnz in Hrun.
  eexists. exists vmax. split; [exact Hrun |]. split; [reflexivity |].
  rewrite map_map in Hmax.
  split.
  { intros v Hv. apply (np_max_ge _ _ Hmax).
    now apply (in_map (fun v => IZR (Z.of_nat (n v)))). }
  split.
  { apply np_max_attained in Hmax. apply in_map_iff in Hmax.
    destruct Hmax as [v [Hv Hin]]. now exists v. }
  split.
  { rewrite rgb_where_length, array2colormap_length. unfold values.
    apply length_map. }
  intros i v d Hv Hd Hn.
  set (cm := array2colormap values (cmap self)
               (slider2opacity (OpacitySlider_value self) 0 100
                  (_slmin self) (_slmax self)
                  (view_minOpacity self) (view_maxOpacity self))
               (Some 0) (Some vmax) None None).
  assert (Hcm : exists c, nth_error cm i = Some c).
  { destruct (nth_error cm i) as [c |] eqn:Hc; [now exists c |].
    apply nth_error_None in Hc. unfold cm in Hc.
    rewrite array2colormap_length in Hc.
    unfold values in Hc. rewrite length_map in Hc.
    assert (i < List.length vert)%nat
      by (apply nth_error_Some; rewrite Hv; discriminate). lia. }
  destruct Hcm as [c Hc].
  assert (Hb : nth_error (map negb non_zero) i = Some true).
  { unfold non_zero. rewrite map_map, (nth_error_map_some _ _ _ _ Hv), Hn.
    reflexivity. }
  rewrite (rgb_where_nth _ _ _ i c true d Hc Hb Hd).
  eexists. split; [reflexivity | apply set_rgb_rgb].
Qed.

(** On a mesh without vertices both methods raise ValueError (the greatest
    count, or the least projected value, of an empty array) after the loop
    reported its progress; the progress bar is left shown and neither the
    mesh nor the colorbar is called. *)
Theorem cortical_methods_without_vertices (self : SourcesTransform)
    (pts : list point) :
  Sources.xyz (sources self) = Some pts ->
  List.length pts = List.length (Ma.values (Sources.data (sources self))) ->
  List.length (data_mask self)
  = List.length (Ma.values (Sources.data (sources self))) ->
  Atlas._nv (atlas self) = 0%nat ->
  Atlas.vert (atlas self) = [] ->
  let data := Sources.data (sources self) in
  let t := progressbar_show
           :: map (fun k => progressbar_setValue
                              (100 * INR k
                               / INR (List.length (idxunmasked_of data))))
                (idxunmasked_of data) in
  cortical_repartition slider2opacity array2colormap self = (t, Raise ValueError)
  /\ cortical_projection slider2opacity array2colormap self = (t, Raise ValueError).
Proof.
  intros Hxyz Hpts Hmask Hnv Hvert data t. split.
  - unfold cortical_repartition. rewrite Hxyz, Hnv, Hvert.
    change 0%nat with (List.length (@nil point)) at 1.
    rewrite (get_mask_spec self [] pts _ 0%Z false Hpts Hmask).
    cbn [map bind emit lift np_max app]. now rewrite app_nil_r.
  - unfold cortical_projection. rewrite Hxyz.
    rewrite (projection_values_spec self pts); try assumption;
      [| now rewrite Hnv, Hvert].
    rewrite Hvert. cbn [map bind emit lift app].
    unfold rescale_to_data.
    destruct (Ma.min (Sources.data (sources self)));
      destruct (Ma.max (Sources.data (sources self)));
      cbn [_rescale_cmap map Np.select np_min res_bind];
      now rewrite app_nil_r.
Qed.

Lemma select_all_false {A : Type} (a : list A) (m : list bool) :
  (forall b, In b m -> b = false) -> Np.select a m = [].
Proof.
  revert m. induction a as [|x a IH]; intros [|b m] H; cbn [Np.select];
    try reflexivity.
  rewrite (H b (or_introl eq_refl)). apply IH. intros b' Hb'. apply H. now right.
Qed.

(** With coordinates but every source masked, [cortical_projection] does
    not skip: the projected array is 0 everywhere and the rescaling raises
    ValueError.  The progress bar was shown and is not hidden; the mesh and
    the colorbar are not called. *)
Theorem cortical_projection_all_masked (self : SourcesTransform)
    (pts : list point) :
  Sources.xyz (sources self) = Some pts ->
  (forall b, In b (data_mask self) -> b = true) ->
  cortical_projection slider2opacity array2colormap self
  = ([progressbar_show], Raise ValueError).
Proof.
  intros Hxyz Hall. unfold cortical_projection, projection_values, _get_mask.
  fold (idxunmasked_of (Sources.data (sources self))).
  rewrite Hxyz, (idxunmasked_all_masked _ Hall).
  cbn [enumerate List.length seq combine for_each bind emit ret lift app].
  unfold rescale_to_data, Ma.min, Ma.unmasked.
  rewrite select_all_false; [reflexivity |].
  intros b Hb. apply in_map_iff in Hb. destruct Hb as [b' [<- Hb']].
  now rewrite (Hall b' Hb').
Qed.



End EndToEnd.


Lemma cortical_repartition_counts_witness :
  let s2o := fun _ _ _ _ _ _ _ : R => 1 in
  let a2c := fun (x : list Np.float) (_ : string) (_ : R) (_ _ : option R)
                 (_ _ : option string) => map (fun _ => (0, 0, 0, 1)) x in
  let self := scene 10 [(1, 0, 0); (-1, 0, 0)] (Some [(1, 0, 0)]) [5] [false] in
  exists t colours values non_zero,
    cortical_repartition s2o a2c self
    = (t, Ok (set_current_non_zero
                (set_current_mask (set_vertex_colors self colours) (Some values))
                (Some non_zero)))
    /\ List.length colours = 2%nat.
Proof.
  intros s2o a2c self.
  destruct (cortical_repartition_counts s2o a2c
              (fun x _ _ _ _ _ _ => length_map _ x)
              self [(1, 0, 0)] eq_refl eq_refl eq_refl eq_refl
              ltac:(discriminate) eq_refl)
    as [colours [vmax [Hrun [_ [_ [_ [Hlen _]]]]]]].
  do 2 eexists. exists (map (fun v => Np.Fin (IZR (Z.of_nat
         (contributors (radius self) false
            (active_sources [(1, 0, 0)] (Sources.data (sources self))) v))))
         (Atlas.vert (atlas self))).
  eexists. split; [exact Hrun | exact Hlen].
Defined.

Lemma cortical_methods_without_vertices_witness :
  let s2o := fun _ _ _ _ _ _ _ : R => 1 in
  let a2c := fun (x : list Np.float) (_ : string) (_ : R) (_ _ : option R)
                 (_ _ : option string) => map (fun _ => (0, 0, 0, 1)) x in
  let self := scene 10 [] (Some [(1, 0, 0)]) [5] [false] in
  cortical_repartition s2o a2c self
  = ([progressbar_show; progressbar_setValue (100 * INR 0 / INR 1)],
     Raise ValueError)
  /\ cortical_projection s2o a2c self
     = ([progressbar_show; progressbar_setValue (100 * INR 0 / INR 1)],
        Raise ValueError).
Proof.
  intros s2o a2c self.
  exact (cortical_methods_without_vertices s2o a2c self [(1, 0, 0)]
           eq_refl eq_refl eq_refl eq_refl eq_refl).
Defined.

Lemma cortical_projection_all_masked_witness :
  let s2o := fun _ _ _ _ _ _ _ : R => 1 in
  let a2c := fun (x : list Np.float) (_ : string) (_ : R) (_ _ : option R)
                 (_ _ : option string) => map (fun _ => (0, 0, 0, 1)) x in
  let self := scene 10 [(1, 0, 0)] (Some [(1, 0, 0)]) [5] [true] in
  cortical_projection s2o a2c self = ([progressbar_show], Raise ValueError).
Proof.
  intros s2o a2c self.
  apply (cortical_projection_all_masked s2o a2c self [(1, 0, 0)] eq_refl).
  intros b [<- | []]. reflexivity.
Defined.


(** * The mesh visual *)

Lemma setitem_nth_same {A : Type} (l : list A) (k : nat) (v : A) :
  (k < List.length l)%nat -> nth_error (setitem l k v) k = Some v.
Proof.
  revert k. induction l as [|x l IH]; intros [|k] H; cbn in *; try lia;
    [reflexivity | apply IH; lia].
Qed.

Lemma setitem_nth_other {A : Type} (l : list A) (k j : nat) (v : A) :
  j <> k -> nth_error (setitem l k v) j = nth_error l j.
Proof.
  revert k j. induction l as [|x l IH]; intros [|k] [|j] H; cbn;
    try reflexivity; try contradiction. apply IH. congruence.
Qed.

Lemma setitem_twice {A : Type} (l : list A) (k : nat) (v w : A) :
  setitem (setitem l k v) k w = setitem l k w.
Proof.
  revert k. induction l as [|x l IH]; intros [|k]; cbn; try reflexivity.
  now rewrite IH.
Qed.

(** [projection] on a light colour with its four components: it sets the
    depth test (off for ['internal'], on for anything else), writes the
    fourth component of the light colour (0.1 for ['internal'], 1 otherwise),
    flags the light as changed and asks for a redraw.  The first three
    components, the position, the intensity, the coefficients, the colours
    and the camera are left as they were.  Doing it again with the same
    argument leaves the same object. *)
Theorem mesh_projection_switches_opacity (self : Mesh.t) (p : string) :
  (4 <= List.length (Mesh._l_color self))%nat ->
  let internal := String.eqb p "internal" in
  let a := if internal then 1 / 10 else 1 in
  let self' :=
    Mesh.with_flags
      (Mesh.with_light self (Mesh._l_position self)
         (setitem (Mesh._l_color self) 3 a) (Mesh._l_intensity self)
         (Mesh._l_coefAmbient self) (Mesh._l_coefSpecular self))
      (Mesh._data_changed self) (Mesh._color_changed self) true in
  Mesh.projection self p
  = ([Mesh.set_gl_state "translucent" (negb internal) false; Mesh.update;
      Mesh.update_gl_state], self', None)
  /\ nth_error (Mesh._l_color self') 3 = Some a
  /\ (forall k, k <> 3%nat ->
        nth_error (Mesh._l_color self') k = nth_error (Mesh._l_color self) k)
  /\ List.length (Mesh._l_color self') = List.length (Mesh._l_color self)
  /\ Mesh.projection self' p
     = ([Mesh.set_gl_state "translucent" (negb internal) false; Mesh.update;
         Mesh.update_gl_state], self', None).
Proof.
  intros Hlen internal a self'.
  assert (Hlt : Nat.ltb 3 (List.length (Mesh._l_color self)) = true)
    by (apply Nat.ltb_lt; lia).
  split.
  { unfold Mesh.projection, Mesh.list_setitem. fold internal. fold a.
    rewrite Hlt. reflexivity. }
  split; [apply setitem_nth_same; lia |].
  split; [intros k Hk; now apply setitem_nth_other |].
  split; [apply setitem_length |].
  unfold Mesh.projection, Mesh.list_setitem. fold internal. fold a.
  cbn [self' Mesh._l_color Mesh.with_flags Mesh.with_light].
  rewrite setitem_length, Hlt.
  cbn [Mesh.then_ Mesh.set_light Mesh.mesh_light_changed Mesh.or_else app
       Mesh.with_flags Mesh.with_light Mesh._l_color Mesh._l_position
       Mesh._l_intensity Mesh._l_coefAmbient Mesh._l_coefSpecular
       Mesh._data_changed Mesh._color_changed Mesh._light_changed
       Mesh._vertFaces Mesh._colFaces Mesh._normFaces Mesh._tri
       Mesh._camera Mesh._camera_transform].
  now rewrite setitem_twice.
Qed.

Lemma mesh_projection_switches_opacity_witness :
  let self := Mesh.make [] [] [] [] false false false [1; 1; 1] [1; 1; 1; 1]
                [1; 1; 1] (7 / 100) (1 / 2) None None in
  let self' :=
    Mesh.with_flags
      (Mesh.with_light self [1; 1; 1] (setitem [1; 1; 1; 1] 3 (1 / 10))
         [1; 1; 1] (7 / 100) (1 / 2))
      false false true in
  Mesh.projection self "internal"
  = ([Mesh.set_gl_state "translucent" false false; Mesh.update;
      Mesh.update_gl_state], self', None)
  /\ nth_error (Mesh._l_color self') 3 = Some (1 / 10).
Proof.
  intros self self'.
  destruct (mesh_projection_switches_opacity self "internal")
    as [Hrun [Ha _]]; [cbn; lia |].
  split; [exact Hrun | exact Ha].
Defined.

(** [projection] on a light colour with fewer than four components sets the
    depth test and then raises IndexError: the light is not touched and
    [update_gl_state] is not called. *)
Theorem mesh_projection_short_colour (self : Mesh.t) (p : string) :
  (List.length (Mesh._l_color self) < 4)%nat ->
  Mesh.projection self p
  = ([Mesh.set_gl_state "translucent" (negb (String.eqb p "internal")) false],
     self, Some Mesh.IndexError).
Proof.
  intro H. unfold Mesh.projection, Mesh.list_setitem.
  assert (Hlt : Nat.ltb 3 (List.length (Mesh._l_color self)) = false)
    by (apply Nat.ltb_ge; lia).
  now rewrite Hlt.
Qed.

Lemma mesh_projection_short_colour_witness :
  let self := Mesh.make [] [] [] [] false false false [1; 1; 1] [1; 1; 1]
                [1; 1; 1] (7 / 100) (1 / 2) None None in
  Mesh.projection self "external"
  = ([Mesh.set_gl_state "translucent" true false], self, Some Mesh.IndexError).
Proof.
  intro self. apply (mesh_projection_short_colour self "external"). cbn. lia.
Defined.

(** ** The change flags *)

Lemma with_flags_same (self : Mesh.t) :
  Mesh.with_flags self (Mesh._data_changed self) (Mesh._color_changed self)
    (Mesh._light_changed self) = self.
Proof. now destruct self. Qed.

(** Whatever the three flags, [_prepare_draw] leaves them all cleared, also
    when it raises.  It uploads the data, the colours and the light, in this
    order, each only when its flag was set.  It then needs a view and a
    camera transform: with both it sends the light position mapped by the
    camera, without its last component, and otherwise it raises
    AttributeError.  A second call uploads nothing. *)
Theorem mesh_prepare_draw_flushes (self : Mesh.t) (has_view : bool) :
  let uploads :=
    (if Mesh._data_changed self
     then [Mesh.faces_set_data (Mesh._tri self);
           Mesh.colors_set_data (Mesh._colFaces self);
           Mesh.vertices_set_data (Mesh._vertFaces self);
           Mesh.normals_set_data (Mesh._normFaces self);
           Mesh.program_attribute "a_position";
           Mesh.program_attribute "a_color";
           Mesh.program_attribute "a_normal"]
     else [])
    ++ (if Mesh._color_changed self
        then [Mesh.colors_set_data (Mesh._colFaces self);
              Mesh.program_attribute "a_color"]
        else [])
    ++ (if Mesh._light_changed self
        then [Mesh.program_uniform "u_color" (Mesh._l_color self);
              Mesh.program_uniform "u_coefAmbient" [Mesh._l_coefAmbient self];
              Mesh.program_uniform "u_light_position" (Mesh._l_position self);
              Mesh.program_uniform "u_light_intensity" (Mesh._l_intensity self);
              Mesh.program_uniform "u_coefSpecular" [Mesh._l_coefSpecular self]]
        else []) in
  let last :=
    match has_view, Mesh._camera_transform self with
    | true, Some tr =>
        ([Mesh.view_uniform "u_light_position"
            (removelast (tr (Mesh._l_position self)))], None)
    | _, _ => ([], Some Mesh.AttributeError)
    end in
  let self' := Mesh.with_flags self false false false in
  Mesh._prepare_draw self has_view = (uploads ++ fst last, self', snd last)
  /\ Mesh._prepare_draw self' has_view = (fst last, self', snd last).
Proof.
  destruct self as [vf cf nf tri d c l lp lc li la ls cam ctr].
  destruct d, c, l, has_view, ctr as [tr |]; split; reflexivity.
Qed.

(** A visual whose camera was set to None cannot be drawn: [_prepare_draw]
    raises AttributeError.  With a camera and a view it does not raise. *)
Theorem mesh_draw_needs_camera (self : Mesh.t) (cam : Mesh.camera) :
  (forall has_view,
     snd (Mesh._prepare_draw (snd (fst (Mesh.set_camera self None))) has_view)
     = Some Mesh.AttributeError)
  /\ snd (Mesh._prepare_draw (snd (fst (Mesh.set_camera self (Some cam)))) true)
     = None
  /\ snd (Mesh._prepare_draw (snd (fst (Mesh.set_camera self (Some cam)))) false)
     = Some Mesh.AttributeError.
Proof.
  destruct self as [vf cf nf tri d c l lp lc li la ls cam0 ctr].
  split; [| split].
  - intros has_view. destruct d, c, l, has_view; reflexivity.
  - destruct d, c, l; reflexivity.
  - destruct d, c, l; reflexivity.
Qed.

(** ** The opacity of the colours *)

Lemma set_alpha_where_length (c : list Mesh.face_colours)
    (index : list (bool * bool * bool)) (a : R) :
  List.length (Mesh.set_alpha_where c index a) = List.length c.
Proof.
  revert index. induction c as [|x c IH]; intros [|i index];
    cbn [Mesh.set_alpha_where List.length]; try reflexivity. now rewrite IH.
Qed.

Lemma set_alpha_where_nth (c : list Mesh.face_colours)
    (index : list (bool * bool * bool)) (a : R) :
  forall k x i, nth_error c k = Some x -> nth_error index k = Some i ->
  nth_error (Mesh.set_alpha_where c index a) k = Some (Mesh.set_alpha_face x i a).
Proof.
  revert index. induction c as [|x0 c IH]; intros [|i0 index] [|k] x i;
    cbn [nth_error Mesh.set_alpha_where]; try discriminate.
  - now intros [= <-] [= <-].
  - apply IH.
Qed.

Lemma set_a_rgb (c : rgba) (a : R) : fst (Mesh.set_a c a) = fst c.
Proof. destruct c as [[[r g] b] a0]. reflexivity. Qed.

Lemma set_a_alpha (c : rgba) (a : R) : snd (Mesh.set_a c a) = a.
Proof. destruct c as [[[r g] b] a0]. reflexivity. Qed.

(** [set_alpha] with a boolean index of one row per face writes the opacity
    on the face vertices the index marks and on nothing else: the red, green
    and blue of every vertex and the opacity of the unmarked vertices are
    kept, the number of faces too; the colours are flagged as changed and a
    redraw is asked.  With an index of another length IndexError is raised
    and nothing is written. *)
Theorem mesh_set_alpha_frame (self : Mesh.t) (alpha : R)
    (index : list (bool * bool * bool)) :
  if Nat.eqb (List.length index) (List.length (Mesh._colFaces self)) then
    exists cols,
      Mesh.set_alpha self alpha (Some index)
      = ([Mesh.update],
         Mesh.with_flags (Mesh.with_colFaces self cols)
           (Mesh._data_changed self) true (Mesh._light_changed self), None)
      /\ List.length cols = List.length (Mesh._colFaces self)
      /\ forall k c0 c1 c2 i0 i1 i2,
           nth_error (Mesh._colFaces self) k = Some (c0, c1, c2) ->
           nth_error index k = Some (i0, i1, i2) ->
           exists c0' c1' c2',
             nth_error cols k = Some (c0', c1', c2')
             /\ fst c0' = fst c0 /\ fst c1' = fst c1 /\ fst c2' = fst c2
             /\ snd c0' = (if i0 then alpha else snd c0)
             /\ snd c1' = (if i1 then alpha else snd c1)
             /\ snd c2' = (if i2 then alpha else snd c2)
  else
    Mesh.set_alpha self alpha (Some index) = ([], self, Some Mesh.IndexError).
Proof.
  destruct (Nat.eqb (List.length index) (List.length (Mesh._colFaces self)))
    eqn:Hlen.
  - exists (Mesh.set_alpha_where (Mesh._colFaces self) index alpha).
    split.
    { unfold Mesh.set_alpha. rewrite Hlen. reflexivity. }
    split; [apply set_alpha_where_length |].
    intros k c0 c1 c2 i0 i1 i2 Hc Hi.
    rewrite (set_alpha_where_nth _ _ _ _ _ _ Hc Hi).
    cbn [Mesh.set_alpha_face]. do 3 eexists. split; [reflexivity |].
    destruct i0, i1, i2; rewrite ?set_a_rgb, ?set_a_alpha; repeat split.
  - unfold Mesh.set_alpha. now rewrite Hlen.
Qed.

(** [set_alpha] without an index, on colours with one row per face of the
    mesh, gives every vertex of every face the opacity and keeps its red,
    green and blue.  Only the last opacity set counts. *)
Theorem mesh_set_alpha_everywhere (self : Mesh.t) (alpha beta : R) :
  List.length (Mesh._colFaces self) = Mesh.len self ->
  exists cols,
    Mesh.set_alpha self alpha None
    = ([Mesh.update],
       Mesh.with_flags (Mesh.with_colFaces self cols)
         (Mesh._data_changed self) true (Mesh._light_changed self), None)
    /\ (forall k c0 c1 c2,
          nth_error (Mesh._colFaces self) k = Some (c0, c1, c2) ->
          nth_error cols k
          = Some (Mesh.set_a c0 alpha, Mesh.set_a c1 alpha, Mesh.set_a c2 alpha))
    /\ snd (fst (Mesh.then_ (Mesh.set_alpha self beta None)
                   (fun s => Mesh.set_alpha s alpha None)))
       = Mesh.with_flags (Mesh.with_colFaces self cols)
           (Mesh._data_changed self) true (Mesh._light_changed self).
Proof.
  intro Hlen.
  set (every := fun (a : R) (x : Mesh.face_colours) =>
                  let '(c0, c1, c2) := x in
                  (Mesh.set_a c0 a, Mesh.set_a c1 a, Mesh.set_a c2 a)).
  assert (Hall : forall (c : list Mesh.face_colours) a,
             Mesh.set_alpha_where c (repeat (true, true, true) (List.length c)) a
             = map (every a) c).
  { induction c as [|[[c0 c1] c2] c IH]; intro a; cbn; [reflexivity |].
    now rewrite IH. }
  assert (Hrun : forall s a,
             List.length (Mesh._colFaces s) = Mesh.len s ->
             Mesh.set_alpha s a None
             = ([Mesh.update],
                Mesh.with_flags
                  (Mesh.with_colFaces s (map (every a) (Mesh._colFaces s)))
                  (Mesh._data_changed s) true (Mesh._light_changed s), None)).
  { intros s a Hs. unfold Mesh.set_alpha. rewrite <- Hs, repeat_length.
    rewrite Nat.eqb_refl, Hall. reflexivity. }
  exists (map (every alpha) (Mesh._colFaces self)).
  split; [now apply Hrun |].
  split.
  { intros k c0 c1 c2 Hc. now rewrite (nth_error_map_some _ _ _ _ Hc). }
  rewrite (Hrun self beta Hlen). cbn [Mesh.then_].
  rewrite Hrun.
  - cbn [fst snd app Mesh.with_flags Mesh.with_colFaces
         Mesh._vertFaces Mesh._colFaces Mesh._normFaces Mesh._tri
         Mesh._data_changed Mesh._color_changed Mesh._light_changed
         Mesh._l_position Mesh._l_color Mesh._l_intensity Mesh._l_coefAmbient
         Mesh._l_coefSpecular Mesh._camera Mesh._camera_transform].
    assert (Hlast : map (every alpha) (map (every beta) (Mesh._colFaces self))
                    = map (every alpha) (Mesh._colFaces self)).
    { rewrite map_map. apply map_ext. intros [[c0 c1] c2].
      destruct c0 as [[[r0 g0] b0] a0], c1 as [[[r1 g1] b1] a1],
               c2 as [[[r2 g2] b2] a2]. reflexivity. }
    rewrite Hlast. reflexivity.
  - cbn [Mesh.len Mesh.with_flags Mesh.with_colFaces Mesh._vertFaces
         Mesh._colFaces]. rewrite length_map. exact Hlen.
Qed.

Lemma mesh_set_alpha_everywhere_witness :
  let face := ((1, 0, 0), (0, 1, 0), (0, 0, 1)) in
  let cols := ((1, 1, 1, 1), (1, 1, 1, 1), (1, 1, 1, 1)) in
  let self := Mesh.make [face] [cols] [face] [(0, 1, 2)%nat] false false false
                [1; 1; 1] [1; 1; 1; 1] [1; 1; 1] (7 / 100) (1 / 2) None None in
  exists cols',
    Mesh.set_alpha self (1 / 2) None
    = ([Mesh.update],
       Mesh.with_flags (Mesh.with_colFaces self cols') false true false, None)
    /\ nth_error cols' 0
       = Some (Mesh.set_a (1, 1, 1, 1) (1 / 2), Mesh.set_a (1, 1, 1, 1) (1 / 2),
               Mesh.set_a (1, 1, 1, 1) (1 / 2)).
Proof.
  intros face cols self.
  destruct (mesh_set_alpha_everywhere self (1 / 2) 1 eq_refl)
    as [cols' [Hrun [Hall _]]].
  exists cols'. split; [exact Hrun |].
  exact (Hall 0%nat _ _ _ eq_refl).
Defined.

(** * The two plain selectors, and progress without masked sources *)

Lemma where_from_all_true (n : nat) :
  forall s, Np.where_from s (repeat true n) = seq s n.
Proof.
  induction n as [|n IH]; intro s; cbn [repeat Np.where_from seq];
    [reflexivity | now rewrite IH].
Qed.

Lemma map_const_repeat {A B : Type} (y : B) (l : list A) :
  map (fun _ => y) l = repeat y (List.length l).
Proof. induction l as [|x l IH]; cbn; [reflexivity | now rewrite IH]. Qed.

(** ['all'] and ['none'] need no coordinates and never raise: they write
    False, or True, on every mask and keep the number of masks.  After
    ['none'] the loop of [_get_mask] has no source to go through; after
    ['all'] it goes through every source, in order. *)
Theorem plain_selectors (self : SourcesTransform) :
  let n := List.length (data_mask self) in
  let shown := set_data_mask self (repeat false n) in
  let hidden := set_data_mask self (repeat true n) in
  s_display self "all" = ([sources_update; sources_text_update], Ok shown)
  /\ s_display self "none" = ([sources_update; sources_text_update], Ok hidden)
  /\ idxunmasked_of (Sources.data (sources shown)) = seq 0 n
  /\ idxunmasked_of (Sources.data (sources hidden)) = []
  /\ forall nv vert xyz set_to contribute,
       _get_mask hidden nv vert xyz (Sources.data (sources hidden)) set_to
         contribute
       = ([], Ok (repeat set_to nv, repeat 0 nv)).
Proof.
  intros n shown hidden.
  assert (Hhidden : idxunmasked_of (Sources.data (sources hidden)) = []).
  { apply idxunmasked_all_masked.
    cbn [hidden set_data_mask sources Sources.data Ma.mask].
    intros b Hb. now apply repeat_spec in Hb. }
  split.
  { unfold s_display. cbn [str_in existsb String.eqb Ascii.eqb Bool.eqb orb].
    unfold shown, n, data_mask. now rewrite map_const_repeat. }
  split.
  { unfold s_display. cbn [str_in existsb String.eqb Ascii.eqb Bool.eqb orb].
    unfold hidden, n, data_mask. now rewrite map_const_repeat. }
  split.
  { unfold idxunmasked_of, Np.where_.
    cbn [shown set_data_mask sources Sources.data Ma.mask].
    rewrite map_repeat. cbn [Bool.eqb]. apply where_from_all_true. }
  split; [exact Hhidden |].
  intros nv vert xyz set_to contribute. unfold _get_mask.
  fold (idxunmasked_of (Sources.data (sources hidden))).
  rewrite initial_prop, Hhidden. reflexivity.
Qed.

(** When no source is masked the loop of [_get_mask] reports [100*k/N] for
    [k = 0 .. N-1], [N] being the number of sources: every value lies in
    [[0, 100)]. *)
Theorem get_mask_progress_unmasked (self : SourcesTransform)
    (vert xyz : list point) (data : Ma.t) (set_to : Z) (contribute : bool) :
  List.length xyz = List.length (Ma.values data) ->
  List.length (Ma.mask data) = List.length (Ma.values data) ->
  (forall b, In b (Ma.mask data) -> b = false) ->
  let N := List.length (Ma.mask data) in
  let t := fst (_get_mask self (List.length vert) vert xyz data set_to contribute) in
  progress_values t = map (fun k => 100 * INR k / INR N) (seq 0 N)
  /\ Forall (fun v => 0 <= v < 100) (progress_values t).
Proof.
  intros Hxyz Hmask Hall N t.
  assert (Hidx : idxunmasked_of data = seq 0 N).
  { unfold idxunmasked_of, Np.where_, N.
    assert (Hm : map (fun b => Bool.eqb b false) (Ma.mask data)
                 = repeat true (List.length (Ma.mask data))).
    { rewrite <- (map_const_repeat true (Ma.mask data)).
      apply map_ext_in. intros b Hb. now rewrite (Hall b Hb). }
    rewrite Hm. apply where_from_all_true. }
  assert (Hp : progress_values t = map (fun k => 100 * INR k / INR N) (seq 0 N)).
  { unfold t. rewrite (get_mask_progress self vert xyz data set_to contribute Hxyz Hmask).
    now rewrite Hidx, length_seq. }
  split; [exact Hp |].
  rewrite Hp. apply Forall_forall. intros v Hv. apply in_map_iff in Hv.
  destruct Hv as [k [<- Hk]]. apply in_seq in Hk.
  apply percentage_below_100. lia.
Qed.

Lemma get_mask_progress_unmasked_witness :
  let vert := [(1, 0, 0)] in
  let xyz := [(1, 0, 0); (1, 0, 0)] in
  let data := Ma.make [2; 3] [false; false] in
  let self := scene 10 vert (Some xyz) [2; 3] [false; false] in
  let t := fst (_get_mask self (List.length vert) vert xyz data 1 false) in
  progress_values t = map (fun k => 100 * INR k / INR 2) (seq 0 2)
  /\ Forall (fun v => 0 <= v < 100) (progress_values t).
Proof.
  intros vert xyz data self.
  apply (get_mask_progress_unmasked self vert xyz data 1%Z false);
    [reflexivity | reflexivity |].
  intros b [<- | [<- | []]]; reflexivity.
Defined.
